(** * LoyaltyConsumer: the payment escrow state machine of the DMS relay

    Shallow embedding of the Solidity contract [LoyaltyConsumer]
    (openNewLoyaltyPayment, closeNewLoyaltyPayment,
    openCancelLoyaltyPayment, closeCancelLoyaltyPayment) together with the
    parts of its collaborators (Ledger, Shop) that it calls.

    A transaction runs in a state-and-revert monad: a [require] that fails
    or a [revert] discards every write of the call, as the EVM does.
    Amounts are [N]. The checked uint256 arithmetic of the consumer's
    [_openNewLoyaltyPaymentPoint] is modelled (an overflow aborts the call
    with Panic(0x11)); the sums over stored records are bounded because
    every record is written through it, and the Ledger's own arithmetic is
    outside the model. *)

From Stdlib Require Import String List.
From stdpp Require Import base gmap list strings.
Import ListNotations.
Open Scope N_scope.

(* ------------------------------------------------------------------ *)
(** ** Data model *)

Inductive LoyaltyPaymentStatus :=
  | INVALID
  | OPENED_PAYMENT
  | CLOSED_PAYMENT
  | FAILED_PAYMENT
  | OPENED_CANCEL
  | CLOSED_CANCEL
  | FAILED_CANCEL.

#[global] Instance LoyaltyPaymentStatus_eq_dec : EqDecision LoyaltyPaymentStatus.
Proof. solve_decision. Defined.

(** [struct LoyaltyPaymentData] of LoyaltyConsumerStorage; addresses and
    [bytes32] values are naturals. *)
Record LoyaltyPaymentData := mkPayment {
  paymentId : N;
  purchaseId : string;
  currency : string;
  shopId : N;
  account : N;
  secretLock : N;
  timestamp : N;
  paidPoint : N;
  paidToken : N;
  paidValue : N;
  feePoint : N;
  feeToken : N;
  feeValue : N;
  usedValueShop : N;
  status : LoyaltyPaymentStatus
}.

(** The zero-initialised struct a Solidity mapping returns for a fresh key. *)
Definition emptyPayment : LoyaltyPaymentData :=
  mkPayment 0 "" "" 0 0 0 0 0 0 0 0 0 0 0 INVALID.

Inductive ShopStatus := SHOP_INVALID | ACTIVE | INACTIVE.

#[global] Instance ShopStatus_eq_dec : EqDecision ShopStatus.
Proof. solve_decision. Defined.

(** The fields of [IShop.ShopData] that the consumer reads. *)
Record ShopData := mkShop {
  shop_status : ShopStatus;
  shop_currency : string;
  shop_account : N;
  delegator : N
}.

Definition emptyShop : ShopData := mkShop SHOP_INVALID "" 0 0.

(** An entry of the shop registry's used-amount ledger:
    [addUsedAmount] / [subUsedAmount] with (shopId, amount, purchaseId, paymentId). *)
Inductive UsedAmountEntry :=
  | UsedAdd (sid : N) (amount : N) (pid : string) (payid : N)
  | UsedSub (sid : N) (amount : N) (pid : string) (payid : N).

(** [event LoyaltyPaymentEvent(LoyaltyPaymentData payment, uint256 balance)] *)
Record LoyaltyPaymentEvent := mkEvent {
  ev_payment : LoyaltyPaymentData;
  ev_balance : N
}.

(** World state touched by the consumer: its own storage, the Ledger's
    balances, nonces and fee settings, the Shop registry, and the log. *)
Record State := mkState {
  loyaltyPayments : gmap N LoyaltyPaymentData;
  systemAccount : N;
  pointBalances : gmap N N;
  tokenBalances : gmap N N;
  nonces : gmap N N;
  paymentFee : N;
  paymentFeeAccount : N;
  shops : gmap N ShopData;
  usedAmountLog : list UsedAmountEntry;
  events : list LoyaltyPaymentEvent
}.

(** [temporaryAddress] is set to [address(0x0)] in [initialize] and never
    assigned again. *)
Definition temporaryAddress : N := 0.

(** Block context of a transaction. *)
Record Block := mkBlock { block_timestamp : N; block_chainid : N }.

Definition lookup0 (m : gmap N N) (k : N) : N := default 0 (m !! k).

Definition paymentOf (s : State) (id : N) : LoyaltyPaymentData :=
  default emptyPayment (loyaltyPayments s !! id).

Definition pointBalanceOf (s : State) (a : N) : N := lookup0 (pointBalances s) a.
Definition tokenBalanceOf (s : State) (a : N) : N := lookup0 (tokenBalances s) a.
Definition nonceOf (s : State) (a : N) : N := lookup0 (nonces s) a.

(* ------------------------------------------------------------------ *)
(** ** The transaction monad *)

Inductive result (A : Type) := Ok (a : A) | Err (e : string).
Arguments Ok {A} a.
Arguments Err {A} e.

Definition M (A : Type) := State -> result (A * State).

Definition ret {A} (a : A) : M A := fun s => Ok (a, s).
Definition bind {A B} (m : M A) (k : A -> M B) : M B :=
  fun s => match m s with Ok (a, s') => k a s' | Err e => Err e end.

Notation "'do' x <- m ;; k" := (bind m (fun x => k))
  (at level 100, x name, m at level 99, k at level 100, right associativity).
Notation "m ;;; k" := (bind m (fun _ => k))
  (at level 100, right associativity).

Definition gets {A} (f : State -> A) : M A := fun s => Ok (f s, s).
Definition modify (f : State -> State) : M unit := fun s => Ok (tt, f s).
Definition revert {A} (code : string) : M A := fun _ => Err code.
Definition require (b : bool) (code : string) : M unit :=
  if b then ret tt else revert code.

(** The state a transaction leaves behind: its final state when it
    succeeds, the state before it when it reverts. *)
Definition commit (s : State) (r : result (unit * State)) : State :=
  match r with Ok (_, s') => s' | Err _ => s end.

(* ------------------------------------------------------------------ *)
(** ** State setters *)

Definition set_loyaltyPayments (m : gmap N LoyaltyPaymentData) (s : State) : State :=
  mkState m (systemAccount s) (pointBalances s) (tokenBalances s) (nonces s)
    (paymentFee s) (paymentFeeAccount s) (shops s) (usedAmountLog s) (events s).
Definition set_pointBalances (m : gmap N N) (s : State) : State :=
  mkState (loyaltyPayments s) (systemAccount s) m (tokenBalances s) (nonces s)
    (paymentFee s) (paymentFeeAccount s) (shops s) (usedAmountLog s) (events s).
Definition set_tokenBalances (m : gmap N N) (s : State) : State :=
  mkState (loyaltyPayments s) (systemAccount s) (pointBalances s) m (nonces s)
    (paymentFee s) (paymentFeeAccount s) (shops s) (usedAmountLog s) (events s).
Definition set_nonces (m : gmap N N) (s : State) : State :=
  mkState (loyaltyPayments s) (systemAccount s) (pointBalances s) (tokenBalances s) m
    (paymentFee s) (paymentFeeAccount s) (shops s) (usedAmountLog s) (events s).
Definition set_usedAmountLog (l : list UsedAmountEntry) (s : State) : State :=
  mkState (loyaltyPayments s) (systemAccount s) (pointBalances s) (tokenBalances s)
    (nonces s) (paymentFee s) (paymentFeeAccount s) (shops s) l (events s).
Definition set_events (l : list LoyaltyPaymentEvent) (s : State) : State :=
  mkState (loyaltyPayments s) (systemAccount s) (pointBalances s) (tokenBalances s)
    (nonces s) (paymentFee s) (paymentFeeAccount s) (shops s) (usedAmountLog s) l.

Definition upd0 (m : gmap N N) (k v : N) : gmap N N := <[k := v]> m.

(* ------------------------------------------------------------------ *)
(** ** Collaborators *)

(** Modelled from the spec: the Ledger contract (not under src/), section
    4.3: balances and nonces per account, [debit] fails the whole call when
    the balance would go negative, [transfer] is an atomic debit and credit,
    [increaseNonce] consumes one nonce. *)
Definition ledger_pointBalanceOf (a : N) : M N := gets (fun s => pointBalanceOf s a).
Definition ledger_tokenBalanceOf (a : N) : M N := gets (fun s => tokenBalanceOf s a).
Definition ledger_nonceOf (a : N) : M N := gets (fun s => nonceOf s a).
Definition ledger_getPaymentFee : M N := gets paymentFee.
Definition ledger_getPaymentFeeAccount : M N := gets paymentFeeAccount.

Definition ledger_increaseNonce (a : N) : M unit :=
  modify (fun s => set_nonces (upd0 (nonces s) a (nonceOf s a + 1)) s).

Definition ledger_addPointBalance (a v : N) : M unit :=
  modify (fun s => set_pointBalances (upd0 (pointBalances s) a (pointBalanceOf s a + v)) s).

Definition ledger_subPointBalance (a v : N) : M unit :=
  do b <- ledger_pointBalanceOf a ;;
  require (v <=? b) "Ledger: insufficient point balance" ;;;
  modify (fun s => set_pointBalances (upd0 (pointBalances s) a (b - v)) s).

Definition ledger_addTokenBalance (a v : N) : M unit :=
  modify (fun s => set_tokenBalances (upd0 (tokenBalances s) a (tokenBalanceOf s a + v)) s).

Definition ledger_subTokenBalance (a v : N) : M unit :=
  do b <- ledger_tokenBalanceOf a ;;
  require (v <=? b) "Ledger: insufficient token balance" ;;;
  modify (fun s => set_tokenBalances (upd0 (tokenBalances s) a (b - v)) s).

Definition ledger_transferToken (from to v : N) : M unit :=
  ledger_subTokenBalance from v ;;; ledger_addTokenBalance to v.

(** Modelled from the spec: the Shop registry (not under src/), section
    4.4: [shopOf] reads a shop, the used-amount ledger is append-only with
    explicit reversal entries. *)
Definition shop_shopOf (sid : N) : M ShopData :=
  gets (fun s => default emptyShop (shops s !! sid)).

Definition shop_addUsedAmount (sid amount : N) (pid : string) (payid : N) : M unit :=
  modify (fun s => set_usedAmountLog (usedAmountLog s ++ [UsedAdd sid amount pid payid]) s).

Definition shop_subUsedAmount (sid amount : N) (pid : string) (payid : N) : M unit :=
  modify (fun s => set_usedAmountLog (usedAmountLog s ++ [UsedSub sid amount pid payid]) s).

(** Modelled from the spec: [DMS.zeroGWEI] (library not under src/), the
    normalisation of the fee to whole multiples of 1 gwei. *)
Definition zeroGWEI (v : N) : N := (v / 1000000000) * 1000000000.

(** The payload hashed by [keccak256(abi.encode(...))] and signed. *)
Inductive SignedMessage :=
  | MsgPayment (pid : N) (purchase : string) (amount : N) (cur : string)
      (sid : N) (acc : N) (chainid : N) (nonce : N)
  | MsgCancel (pid : N) (purchase : string) (signer : N) (chainid : N) (nonce : N).

(** [LoyaltyPaymentInputData] *)
Record LoyaltyPaymentInputData := mkInput {
  in_paymentId : N;
  in_purchaseId : string;
  in_amount : N;
  in_currency : string;
  in_shopId : N;
  in_account : N;
  in_signature : N;
  in_secretLock : N
}.

(** OpenZeppelin [ECDSA.RecoverError]. *)
Inductive RecoverError :=
  | NoError
  | InvalidSignature
  | InvalidSignatureLength
  | InvalidSignatureS
  | InvalidSignatureV.

(** OpenZeppelin [ECDSA._throwError]. *)
Definition _throwError (error : RecoverError) : M unit :=
  match error with
  | NoError => ret tt
  | InvalidSignature => revert "ECDSA: invalid signature"
  | InvalidSignatureLength => revert "ECDSA: invalid signature length"
  | InvalidSignatureS => revert "ECDSA: invalid signature 's' value"
  | InvalidSignatureV => revert "ECDSA: invalid signature 'v' value"
  end.

(** [type(uint256).max] *)
Definition UINT256_MAX : N := 2 ^ 256 - 1.

(** Checked uint256 arithmetic of Solidity 0.8: a result above
    [UINT256_MAX] aborts the call with [Panic(0x11)]. *)
Definition checked_mul (a b : N) : M N :=
  if a * b <=? UINT256_MAX then ret (a * b) else revert "Panic(0x11)".
Definition checked_add (a b : N) : M N :=
  if a + b <=? UINT256_MAX then ret (a + b) else revert "Panic(0x11)".

(* ------------------------------------------------------------------ *)
(** ** The LoyaltyConsumer contract *)

Section LoyaltyConsumer.

(** The CurrencyRate contract's conversions (deterministic views). *)
Variable convertCurrencyToPoint : N -> string -> N.
Variable convertPointToToken : N -> N.
Variable convertCurrency : N -> string -> string -> N.
(** [ecrecover] over [toEthSignedMessageHash(keccak256(abi.encode msg))];
    it yields address 0 for a signature that does not recover. *)
Variable ecrecover : SignedMessage -> N -> N.
(** The checks OpenZeppelin's [ECDSA.tryRecover] makes on the raw
    signature bytes before it calls the [ecrecover] precompile: the length,
    [s] in the lower half of the curve order and, in the versions that
    check it, [v] in {27, 28}. [NoError] when the bytes pass them. *)
Variable signatureCheck : N -> RecoverError.
(** [keccak256(abi.encode(_secret))] *)
Variable keccakSecret : N -> N.

(** OpenZeppelin [ECDSA.tryRecover(hash, signature)]. *)
Definition tryRecover (msg : SignedMessage) (sig : N) : N * RecoverError :=
  match signatureCheck sig with
  | NoError =>
      let signer := ecrecover msg sig in
      if signer =? 0 then (0, InvalidSignature) else (signer, NoError)
  | e => (0, e)
  end.

(** OpenZeppelin [ECDSA.recover(hash, signature)]: [tryRecover], then
    [_throwError] on its error. *)
Definition ECDSA_recover (msg : SignedMessage) (sig : N) : M N :=
  let '(recovered, error) := tryRecover msg sig in
  _throwError error ;;;
  ret recovered.

Definition getPayment (id : N) : M LoyaltyPaymentData := gets (fun s => paymentOf s id).

Definition setPayment (id : N) (p : LoyaltyPaymentData) : M unit :=
  modify (fun s => set_loyaltyPayments (<[id := p]> (loyaltyPayments s)) s).

Definition emit (e : LoyaltyPaymentEvent) : M unit :=
  modify (fun s => set_events (events s ++ [e]) s).

(** Field writes [loyaltyPayments[id].f = v]. *)
Definition with_status (st : LoyaltyPaymentStatus) (p : LoyaltyPaymentData) :=
  mkPayment (paymentId p) (purchaseId p) (currency p) (shopId p) (account p)
    (secretLock p) (timestamp p) (paidPoint p) (paidToken p) (paidValue p)
    (feePoint p) (feeToken p) (feeValue p) (usedValueShop p) st.
Definition with_secretLock (l : N) (p : LoyaltyPaymentData) :=
  mkPayment (paymentId p) (purchaseId p) (currency p) (shopId p) (account p)
    l (timestamp p) (paidPoint p) (paidToken p) (paidValue p)
    (feePoint p) (feeToken p) (feeValue p) (usedValueShop p) (status p).
Definition with_usedValueShop (v : N) (p : LoyaltyPaymentData) :=
  mkPayment (paymentId p) (purchaseId p) (currency p) (shopId p) (account p)
    (secretLock p) (timestamp p) (paidPoint p) (paidToken p) (paidValue p)
    (feePoint p) (feeToken p) (feeValue p) v (status p).

Definition updatePayment (id : N) (f : LoyaltyPaymentData -> LoyaltyPaymentData) : M unit :=
  do p <- getPayment id ;; setPayment id (f p).

Definition status_eqb (a b : LoyaltyPaymentStatus) : bool := bool_decide (a = b).

(** [_openNewLoyaltyPaymentPoint] *)
Definition _openNewLoyaltyPaymentPoint (data : LoyaltyPaymentInputData) (blk : Block) : M unit :=
  let paidPoint := convertCurrencyToPoint (in_amount data) (in_currency data) in
  let paidToken := convertPointToToken paidPoint in
  do fee <- ledger_getPaymentFee ;;
  do product <- checked_mul (in_amount data) fee ;;
  let feeValue := zeroGWEI (product / 10000) in
  let feePoint := convertCurrencyToPoint feeValue (in_currency data) in
  let feeToken := convertPointToToken feePoint in
  do bal <- ledger_pointBalanceOf (in_account data) ;;
  do total1 <- checked_add paidPoint feePoint ;;
  require (total1 <=? bal) "1511" ;;;
  do total2 <- checked_add paidPoint feePoint ;;
  ledger_subPointBalance (in_account data) total2 ;;;
  do total3 <- checked_add paidPoint feePoint ;;
  ledger_addPointBalance temporaryAddress total3 ;;;
  setPayment (in_paymentId data)
    (mkPayment (in_paymentId data) (in_purchaseId data) (in_currency data)
       (in_shopId data) (in_account data) (in_secretLock data)
       (block_timestamp blk) paidPoint paidToken (in_amount data)
       feePoint feeToken feeValue 0 OPENED_PAYMENT) ;;;
  do p <- getPayment (in_paymentId data) ;;
  do b <- ledger_pointBalanceOf (in_account data) ;;
  emit (mkEvent p b).

(** [openNewLoyaltyPayment] *)
Definition openNewLoyaltyPayment (data : LoyaltyPaymentInputData) (blk : Block) : M unit :=
  do p <- getPayment (in_paymentId data) ;;
  require (status_eqb (status p) INVALID) "1530" ;;;
  do n <- ledger_nonceOf (in_account data) ;;
  let dataHash := MsgPayment (in_paymentId data) (in_purchaseId data) (in_amount data)
                    (in_currency data) (in_shopId data) (in_account data)
                    (block_chainid blk) n in
  do signer <- ECDSA_recover dataHash (in_signature data) ;;
  require (signer =? in_account data) "1501" ;;;
  ledger_increaseNonce (in_account data) ;;;
  _openNewLoyaltyPaymentPoint data blk.

(** [closeNewLoyaltyPayment] *)
Definition closeNewLoyaltyPayment (id secret : N) (confirm : bool) : M unit :=
  do p <- getPayment id ;;
  require (status_eqb (status p) OPENED_PAYMENT) "1531" ;;;
  require (secretLock p =? keccakSecret secret) "1505" ;;;
  let totalPoint := paidPoint p + feePoint p in
  (if confirm then
     ledger_subPointBalance temporaryAddress totalPoint ;;;
     do sys <- gets systemAccount ;;
     do tb <- ledger_tokenBalanceOf sys ;;
     (if feeToken p <=? tb then
        ledger_subTokenBalance sys (feeToken p) ;;;
        do fa <- ledger_getPaymentFeeAccount ;;
        ledger_addTokenBalance fa (feeToken p)
      else ret tt) ;;;
     do shop <- shop_shopOf (shopId p) ;;
     (if bool_decide (shop_status shop = ACTIVE) then
        updatePayment id (with_usedValueShop
          (convertCurrency (paidValue p) (currency p) (shop_currency shop))) ;;;
        do p' <- getPayment id ;;
        shop_addUsedAmount (shopId p') (usedValueShop p') (purchaseId p') id
      else ret tt) ;;;
     updatePayment id (with_status CLOSED_PAYMENT)
   else
     ledger_subPointBalance temporaryAddress totalPoint ;;;
     ledger_addPointBalance (account p) totalPoint ;;;
     updatePayment id (with_status FAILED_PAYMENT)) ;;;
  do p' <- getPayment id ;;
  do b <- ledger_pointBalanceOf (account p') ;;
  emit (mkEvent p' b).

(** [openCancelLoyaltyPayment] *)
Definition openCancelLoyaltyPayment (id lock sig : N) (blk : Block) : M unit :=
  do p <- getPayment id ;;
  require (negb (status_eqb (status p) CLOSED_PAYMENT)
           || negb (status_eqb (status p) FAILED_CANCEL)) "1532" ;;;
  require (block_timestamp blk <=? timestamp p + 86400 * 7) "1534" ;;;
  do shopInfo <- shop_shopOf (shopId p) ;;
  do n1 <- ledger_nonceOf (shop_account shopInfo) ;;
  let dataHash1 := MsgCancel id (purchaseId p) (shop_account shopInfo) (block_chainid blk) n1 in
  do r1 <- ECDSA_recover dataHash1 sig ;;
  let pass1 := r1 =? shop_account shopInfo in
  do pass2 <- (if negb (delegator shopInfo =? 0) then
                 do n2 <- ledger_nonceOf (delegator shopInfo) ;;
                 let dataHash2 := MsgCancel id (purchaseId p) (delegator shopInfo)
                                    (block_chainid blk) n2 in
                 do r2 <- ECDSA_recover dataHash2 sig ;;
                 ret (r2 =? delegator shopInfo)
               else ret false) ;;
  require (pass1 || pass2) "1501" ;;;
  ledger_increaseNonce (shop_account shopInfo) ;;;
  do fa <- ledger_getPaymentFeeAccount ;;
  do tb <- ledger_tokenBalanceOf fa ;;
  if feeToken p <=? tb then
    ledger_transferToken fa temporaryAddress (feeToken p) ;;;
    ledger_addPointBalance temporaryAddress (paidPoint p + feePoint p) ;;;
    updatePayment id (with_secretLock lock) ;;;
    updatePayment id (with_status OPENED_CANCEL) ;;;
    do p' <- getPayment id ;;
    do b <- ledger_pointBalanceOf (account p') ;;
    emit (mkEvent p' b)
  else revert "1513".

(** [closeCancelLoyaltyPayment] *)
Definition closeCancelLoyaltyPayment (id secret : N) (confirm : bool) : M unit :=
  do p <- getPayment id ;;
  require (status_eqb (status p) OPENED_CANCEL) "1533" ;;;
  require (secretLock p =? keccakSecret secret) "1505" ;;;
  if confirm then
    do sys <- gets systemAccount ;;
    ledger_transferToken temporaryAddress sys (feeToken p) ;;;
    ledger_addPointBalance (account p) (paidPoint p + feePoint p) ;;;
    do balance <- ledger_pointBalanceOf (account p) ;;
    shop_subUsedAmount (shopId p) (usedValueShop p) (purchaseId p) id ;;;
    updatePayment id (with_status CLOSED_CANCEL) ;;;
    do p' <- getPayment id ;;
    emit (mkEvent p' balance)
  else
    do fa <- ledger_getPaymentFeeAccount ;;
    ledger_transferToken temporaryAddress fa (feeToken p) ;;;
    ledger_subPointBalance temporaryAddress (paidPoint p + feePoint p) ;;;
    do balance <- ledger_pointBalanceOf (account p) ;;
    updatePayment id (with_status FAILED_CANCEL) ;;;
    do p' <- getPayment id ;;
    emit (mkEvent p' balance).

(** The authorisation tests of [openCancelLoyaltyPayment] (both
    [ECDSA.recover] calls succeed and [pass1 || pass2] holds), read on the
    state the call starts from. *)
Definition cancelSignatureOk (s : State) (id sig : N) (blk : Block) : Prop :=
  let p := paymentOf s id in
  let sh := default emptyShop (shops s !! shopId p) in
  let r1 := ecrecover (MsgCancel id (purchaseId p) (shop_account sh) (block_chainid blk)
                         (nonceOf s (shop_account sh))) sig in
  let r2 := ecrecover (MsgCancel id (purchaseId p) (delegator sh) (block_chainid blk)
                         (nonceOf s (delegator sh))) sig in
  signatureCheck sig = NoError /\ r1 <> 0 /\ (delegator sh <> 0 -> r2 <> 0) /\
  (r1 = shop_account sh \/ (delegator sh <> 0 /\ r2 = delegator sh)).

(* ------------------------------------------------------------------ *)
(** ** Reachable states

    A deployment starts with no payment record. A step is a successful
    call of one of the four entry points (a reverted call leaves the state
    as it was), or a change made by other contracts and administrators:
    balances, nonces, shops and fee settings of the Ledger and the Shop
    registry, which never decrease the holding account's points and never
    write the consumer's payment records. *)
Inductive step : State -> State -> Prop :=
  | step_openPayment data blk s s' :
      openNewLoyaltyPayment data blk s = Ok (tt, s') -> step s s'
  | step_closePayment id secret confirm s s' :
      closeNewLoyaltyPayment id secret confirm s = Ok (tt, s') -> step s s'
  | step_openCancel id lock sig blk s s' :
      openCancelLoyaltyPayment id lock sig blk s = Ok (tt, s') -> step s s'
  | step_closeCancel id secret confirm s s' :
      closeCancelLoyaltyPayment id secret confirm s = Ok (tt, s') -> step s s'
  | step_external s s' :
      loyaltyPayments s' = loyaltyPayments s ->
      pointBalanceOf s temporaryAddress <= pointBalanceOf s' temporaryAddress ->
      step s s'.

Inductive reachable : State -> Prop :=
  | reach_init s : loyaltyPayments s = ∅ -> reachable s
  | reach_step s s' : reachable s -> step s s' -> reachable s'.

End LoyaltyConsumer.

(** Points a record keeps in escrow on the holding account. *)
Definition escrowed (p : LoyaltyPaymentData) : N :=
  match status p with
  | OPENED_PAYMENT | OPENED_CANCEL => paidPoint p + feePoint p
  | _ => 0
  end.

Definition totalEscrow (m : gmap N LoyaltyPaymentData) : N :=
  map_fold (fun _ p acc => escrowed p + acc) 0 m.

(** The escrow invariant: a record on address 0 (the holding account)
    carries no points, and the holding account covers every open escrow. *)
Definition escrowInv (s : State) : Prop :=
  (forall id p, loyaltyPayments s !! id = Some p ->
     account p = temporaryAddress -> paidPoint p + feePoint p = 0) /\
  totalEscrow (loyaltyPayments s) <= pointBalanceOf s temporaryAddress.

(** [d] counted once for each occurrence of [k] in a list of accounts. *)
Fixpoint indicatorSum (L : list N) (k d : N) : N :=
  match L with
  | [] => 0
  | a :: rest => (if decide (a = k) then d else 0) + indicatorSum rest k d
  end.

(** Points held by a list of accounts. *)
Fixpoint pointSupply (s : State) (accts : list N) : N :=
  match accts with
  | [] => 0
  | a :: rest => pointBalanceOf s a + pointSupply s rest
  end.

#[global] Instance SignedMessage_eq_dec : EqDecision SignedMessage.
Proof. solve_decision. Defined.

(* ------------------------------------------------------------------ *)
(** ** A concrete deployment, used by the examples below

    Rate 1:1 between currency, point and token; fee 1% (100 basis points).
    Account 7 pays; shop 10 has primary account 5 and delegate 6; 3 is the
    system account and 4 the fee-collection account. Signature 1 is 7's
    over the opening of payment 1, signature 2 is the delegate's over the
    cancellation of payment 1 (delegate nonce 0), signature 3 is the
    shop's over it (shop nonce 0), signature 4 is 7's over the opening of
    payment 2 of 2^255 KRW. *)
Module Demo.

Definition G : N := 1000000000.

Definition toPoint (a : N) (_ : string) : N := a.
Definition toToken (p : N) : N := p.
Definition convert (a : N) (_ _ : string) : N := a.
Definition keccak (x : N) : N := x + 1000.

Definition input1 : LoyaltyPaymentInputData :=
  mkInput 1 "P1" (100 * G) "KRW" 10 7 1 (keccak 42).

Definition ecrecover (msg : SignedMessage) (sig : N) : N :=
  match sig with
  | 1 => if bool_decide (msg = MsgPayment 1 "P1" (100 * G) "KRW" 10 7 1 0) then 7 else 999
  | 2 => if bool_decide (msg = MsgCancel 1 "P1" 6 1 0) then 6 else 998
  | 3 => if bool_decide (msg = MsgCancel 1 "P1" 5 1 0) then 5 else 997
  | 4 => if bool_decide (msg = MsgPayment 2 "P2" (2 ^ 255) "KRW" 10 7 1 0) then 7 else 996
  | _ => 0
  end.

(** Every signature but the empty one (0) has a well-formed encoding. *)
Definition sigCheck (sig : N) : RecoverError :=
  if sig =? 0 then InvalidSignatureLength else NoError.

Definition blk0 : Block := mkBlock 100 1.
Definition blk_late : Block := mkBlock (100 + 86400 * 7 + 1) 1.

Definition state0 : State :=
  mkState ∅ 3 (<[7 := 1000 * G]> ∅) (<[3 := 5 * G]> (<[4 := 5 * G]> ∅)) ∅
    100 4 (<[10 := mkShop ACTIVE "KRW" 5 6]> ∅) [] [].

Definition run (m : M unit) (s : State) : State := commit s (m s).

Definition open1 := openNewLoyaltyPayment toPoint toToken ecrecover sigCheck input1 blk0.

(** The same deployment with no token on any account. *)
Definition state0_nofee : State :=
  mkState ∅ 3 (<[7 := 1000 * G]> ∅) ∅ ∅
    100 4 (<[10 := mkShop ACTIVE "KRW" 5 6]> ∅) [] [].
Definition state1_nofee := run open1 state0_nofee.
Definition state2_nofee := run (closeNewLoyaltyPayment convert keccak 1 42 true) state1_nofee.
Definition state1 := run open1 state0.
Definition state2 := run (closeNewLoyaltyPayment convert keccak 1 42 true) state1.
Definition state3 := run (openCancelLoyaltyPayment ecrecover sigCheck 1 (keccak 43) 2 blk0) state2.
Definition state4 := run (closeCancelLoyaltyPayment keccak 1 43 true) state3.
Definition state4_refused := run (closeCancelLoyaltyPayment keccak 1 43 false) state3.

End Demo.


(* ------------------------------------------------------------------ *)
(** ** View functions of LoyaltyConsumer *)

(** [loyaltyPaymentOf] *)
Definition loyaltyPaymentOf (s : State) (id : N) : LoyaltyPaymentData := paymentOf s id.

(** [isAvailablePaymentId] *)
Definition isAvailablePaymentId (s : State) (id : N) : bool :=
  if status_eqb (status (loyaltyPaymentOf s id)) INVALID then true else false.

(* ------------------------------------------------------------------ *)
(** ** Administration of LoyaltyConsumer

    The configuration slots: those of LoyaltyConsumerStorage that
    [initialize], [setLedger] and [setShop] write, with the [_initialized]
    flag of OpenZeppelin's [Initializable] and the [_owner] of
    [OwnableUpgradeable]. An administrative call either reverts or returns
    the new configuration. *)
Record ConsumerConfig := mkConfig {
  initialized : bool;
  owner : N;
  currencyRateContract : N;
  ledgerContract : N;
  cfg_systemAccount : N;
  isSetLedger : bool;
  shopContract : N;
  isSetShop : bool;
  cfg_temporaryAddress : N
}.

(** [initialize], behind OpenZeppelin's [initializer] modifier: on a
    deployed proxy a second top-level call reverts.
    [__Ownable_init_unchained] makes the caller the owner. *)
Definition initialize (sender currencyRate : N) (c : ConsumerConfig) : result ConsumerConfig :=
  if initialized c then Err "Initializable: contract is already initialized"
  else Ok (mkConfig true sender currencyRate (ledgerContract c) (cfg_systemAccount c)
             false (shopContract c) false 0).

(** [setLedger]; [getSystemAccount] is [ILedger.getSystemAccount] of the
    registered ledger. *)
Definition setLedger (getSystemAccount : N -> N) (sender addr : N) (c : ConsumerConfig)
  : result ConsumerConfig :=
  if negb (sender =? owner c) then Err "1050"
  else if negb (isSetLedger c) then
    Ok (mkConfig (initialized c) (owner c) (currencyRateContract c) addr
          (getSystemAccount addr) true (shopContract c) (isSetShop c)
          (cfg_temporaryAddress c))
  else Ok c.

(** [setShop] *)
Definition setShop (sender addr : N) (c : ConsumerConfig) : result ConsumerConfig :=
  if negb (sender =? owner c) then Err "1050"
  else if negb (isSetShop c) then
    Ok (mkConfig (initialized c) (owner c) (currencyRateContract c) (ledgerContract c)
          (cfg_systemAccount c) (isSetLedger c) addr true (cfg_temporaryAddress c))
  else Ok c.


(* ------------------------------------------------------------------ *)
(** ** The provisioning routes of the relay ([ProvisionRouter])

    An HTTP handler is an async function: every awaited call may throw, a
    throw skips to the enclosing [catch], the [finally] block runs on every
    exit of its [try], and writes done before a throw stay done. A handler
    is a function of the relay's mutable state returning its result
    (the response, or an escaping exception) with the state after it.
    Logging has no observable effect and is left out. *)

(** Response bodies. [ErrorMessage c] is [ResponseMessage.getErrorMessage(c)];
    [ResponseData] is [makeResponseData(code, data, error)]; every
    response is sent with HTTP status 200. *)
Inductive Payload :=
  | PNone
  | PProvider (provider : N)
  | PBalance (provider token point : N)
  | PStatus (provider : N) (enable : bool)
  | PSent (provider receiver amount txHash : N).

Inductive Response :=
  | ErrorMessage (code : N)
  | ResponseData (code : N) (data : Payload) (error : option string).

(** Messages built by [ContractUtils] and verified with
    [ContractUtils.verifyMessage]. *)
Inductive RelayMessage :=
  | RegisterProviderMsg (provider nonce chainId : N)
  | ProvidePointToAddressMsg (provider receiver amount nonce chainId : N)
  | ProvidePointToPhoneMsg (provider receiver amount nonce chainId : N).

(** Transactions the relay sends to the LoyaltyProvider contract. *)
Inductive RelayTx :=
  | ProvideToAddressTx (provider receiver amount signature : N)
  | ProvideToPhoneTx (provider receiver amount signature : N).

(** The request fields the handlers read; [req_valid] is the outcome of
    the route's express-validator chain ([validationResult(req).isEmpty()]). *)
Record ProvisionRequest := mkRequest {
  req_valid : bool;
  req_provider : N;
  req_receiver : N;
  req_amount : N;
  req_signature : N
}.

(** The relay's mutable state: the [using] flag of each relay signer, the
    providers written to the relay storage, the transactions sent, and the
    metrics counters added. *)
Record RelayState := mkRelayState {
  signerUsing : gmap N bool;
  providers : list N;
  sentTxs : list (N * RelayTx);
  metrics : list (string * N)
}.

Definition RM (A : Type) := RelayState -> result A * RelayState.

Definition rret {A} (a : A) : RM A := fun s => (Ok a, s).
Definition rbind {A B} (m : RM A) (k : A -> RM B) : RM B :=
  fun s => match m s with
           | (Ok a, s1) => k a s1
           | (Err e, s1) => (Err e, s1)
           end.

Notation "'await' x <- m ;; k" := (rbind m (fun x => k))
  (at level 100, x name, m at level 99, k at level 100, right associativity).

(** An awaited call to a contract or service that does not write the
    relay's state. *)
Definition lift {A} (r : result A) : RM A := fun s => (r, s).

(** [try { body } catch (e) { handler }] *)
Definition try_catch {A} (body : RM A) (handler : string -> RM A) : RM A :=
  fun s => match body s with
           | (Ok a, s1) => (Ok a, s1)
           | (Err e, s1) => handler e s1
           end.

(** [try { body } catch (e) { handler } finally { fin }] *)
Definition try_catch_finally {A} (body : RM A) (handler : string -> RM A) (fin : RM unit)
  : RM A :=
  fun s => let '(r, s1) := try_catch body handler s in
           match fin s1 with
           | (Ok _, s2) => (r, s2)
           | (Err e, s2) => (Err e, s2)
           end.

Definition set_signerUsing (m : gmap N bool) (s : RelayState) : RelayState :=
  mkRelayState m (providers s) (sentTxs s) (metrics s).

(** [this.metrics.add(name, n)] *)
Definition addMetric (name : string) (n : N) : RM unit :=
  fun s => (Ok tt, mkRelayState (signerUsing s) (providers s) (sentTxs s)
                     (metrics s ++ [(name, n)])).

Section ProvisionRouter.

(** The chain and services the router talks to; each awaited call either
    returns or throws. *)
Variable sideChainId : N.
(** [BOACoin.make(config.relay.initialBalanceOfProvider).value] *)
Variable initialBalanceOfProvider : N.
(** [RelaySigners.getSigner]: the signer handed out, flagged in use. *)
Variable getSigner : result N.
Variable ledger_nonceOf_call : N -> result N.
Variable ledger_tokenBalanceOf_call : N -> result N.
Variable ledger_isProvider_call : N -> result bool.
Variable ledger_provisionAgentOf_call : N -> result N.
Variable convertTokenToPoint_call : N -> result N.
(** [ContractUtils.verifyMessage(account, message, signature)] *)
Variable verifyMessage : N -> RelayMessage -> N -> bool.
(** Sending a LoyaltyProvider transaction with a signer: its hash, or a throw. *)
Variable sendTx : N -> RelayTx -> result N.
(** [storage.postNewProvider(provider)] *)
Variable postNewProvider_call : N -> result unit.
(** [ResponseMessage.getEVMErrorMessage(error)]: its code and error. *)
Variable getEVMErrorMessage : string -> N * string.

(** [getRelaySigner] *)
Definition getRelaySigner : RM N :=
  fun s => match getSigner with
           | Ok n => (Ok n, set_signerUsing (<[n := true]> (signerUsing s)) s)
           | Err e => (Err e, s)
           end.

(** [releaseRelaySigner]: [signer.using = false] *)
Definition releaseRelaySigner (signer : N) : RM unit :=
  fun s => (Ok tt, set_signerUsing (<[signer := false]> (signerUsing s)) s).

Definition postNewProvider (provider : N) : RM unit :=
  fun s => match postNewProvider_call provider with
           | Ok _ => (Ok tt, mkRelayState (signerUsing s) (providers s ++ [provider])
                              (sentTxs s) (metrics s))
           | Err e => (Err e, s)
           end.

Definition submitTx (signer : N) (tx : RelayTx) : RM N :=
  fun s => match sendTx signer tx with
           | Ok h => (Ok h, mkRelayState (signerUsing s) (providers s)
                              (sentTxs s ++ [(signer, tx)]) (metrics s))
           | Err e => (Err e, s)
           end.

(** The [catch] block shared by the handlers. *)
Definition failureResponse (e : string) : RM Response :=
  await _ <- addMetric "failure" 1 ;;
  let '(code, err) := getEVMErrorMessage e in
  rret (ResponseData code PNone (Some err)).

(** [provision_register] *)
Definition provision_register (req : ProvisionRequest) : RM Response :=
  if negb (req_valid req) then rret (ErrorMessage 2001) else
  await signerItem <- getRelaySigner ;;
  try_catch_finally
    (let provider := req_provider req in
     let signature := req_signature req in
     await nonce <- lift (ledger_nonceOf_call provider) ;;
     let message := RegisterProviderMsg provider nonce sideChainId in
     if negb (verifyMessage provider message signature) then rret (ErrorMessage 1501) else
     await balance <- lift (ledger_tokenBalanceOf_call provider) ;;
     if balance <? initialBalanceOfProvider then rret (ErrorMessage 1511) else
     await _ <- postNewProvider provider ;;
     await _ <- addMetric "success" 1 ;;
     rret (ResponseData 0 (PProvider provider) None))
    failureResponse
    (releaseRelaySigner signerItem).

(** [provision_balance] *)
Definition provision_balance (req : ProvisionRequest) : RM Response :=
  if negb (req_valid req) then rret (ErrorMessage 2001) else
  try_catch
    (let provider := req_provider req in
     await tokenBalance <- lift (ledger_tokenBalanceOf_call provider) ;;
     await tokenValue <- lift (convertTokenToPoint_call tokenBalance) ;;
     await _ <- addMetric "success" 1 ;;
     rret (ResponseData 0 (PBalance provider tokenBalance tokenValue) None))
    failureResponse.

(** [provision_status] *)
Definition provision_status (req : ProvisionRequest) : RM Response :=
  if negb (req_valid req) then rret (ErrorMessage 2001) else
  try_catch
    (let provider := req_provider req in
     await isProvider <- lift (ledger_isProvider_call provider) ;;
     await _ <- addMetric "success" 1 ;;
     rret (ResponseData 0 (PStatus provider isProvider) None))
    failureResponse.

(** The signer whose signature a provision must carry: the provider's
    registered agent, or the provider itself when none is registered. *)
Definition provisionSigner (provider agent : N) : N :=
  if agent =? 0 then provider else agent.

(** [provision_send_account] *)
Definition provision_send_account (req : ProvisionRequest) : RM Response :=
  if negb (req_valid req) then rret (ErrorMessage 2001) else
  await signerItem <- getRelaySigner ;;
  try_catch_finally
    (let provider := req_provider req in
     let receiver := req_receiver req in
     let amount := req_amount req in
     let signature := req_signature req in
     await agent0 <- lift (ledger_provisionAgentOf_call provider) ;;
     let agent := provisionSigner provider agent0 in
     await nonce <- lift (ledger_nonceOf_call agent) ;;
     let message := ProvidePointToAddressMsg provider receiver amount nonce sideChainId in
     if negb (verifyMessage agent message signature) then rret (ErrorMessage 1501) else
     await txHash <- submitTx signerItem (ProvideToAddressTx provider receiver amount signature) ;;
     await _ <- addMetric "success" 1 ;;
     rret (ResponseData 0 (PSent provider receiver amount txHash) None))
    failureResponse
    (releaseRelaySigner signerItem).

(** [provision_send_phone_hash] *)
Definition provision_send_phone_hash (req : ProvisionRequest) : RM Response :=
  if negb (req_valid req) then rret (ErrorMessage 2001) else
  await signerItem <- getRelaySigner ;;
  try_catch_finally
    (let provider := req_provider req in
     let receiver := req_receiver req in
     let amount := req_amount req in
     let signature := req_signature req in
     await agent0 <- lift (ledger_provisionAgentOf_call provider) ;;
     let agent := provisionSigner provider agent0 in
     await nonce <- lift (ledger_nonceOf_call agent) ;;
     let message := ProvidePointToPhoneMsg provider receiver amount nonce sideChainId in
     if negb (verifyMessage agent message signature) then rret (ErrorMessage 1501) else
     await txHash <- submitTx signerItem (ProvideToPhoneTx provider receiver amount signature) ;;
     await _ <- addMetric "success" 1 ;;
     rret (ResponseData 0 (PSent provider receiver amount txHash) None))
    failureResponse
    (releaseRelaySigner signerItem).

End ProvisionRouter.

(** An administrative transaction and the configuration after a sequence
    of them (a reverted call leaves the configuration as it was). *)
Inductive AdminCall :=
  | CallInitialize (sender currencyRate : N)
  | CallSetLedger (sender addr : N)
  | CallSetShop (sender addr : N).

Definition runAdmin (getSystemAccount : N -> N) (call : AdminCall) (c : ConsumerConfig)
  : result ConsumerConfig :=
  match call with
  | CallInitialize sender cr => initialize sender cr c
  | CallSetLedger sender addr => setLedger getSystemAccount sender addr c
  | CallSetShop sender addr => setShop sender addr c
  end.

Fixpoint runAdmins (getSystemAccount : N -> N) (calls : list AdminCall) (c : ConsumerConfig)
  : ConsumerConfig :=
  match calls with
  | [] => c
  | call :: rest =>
      runAdmins getSystemAccount rest
        (match runAdmin getSystemAccount call c with Ok c' => c' | Err _ => c end)
  end.


(** Relay bookkeeping: a handler's response and the metrics it records.
    A [ResponseData] with code 0 and no error records "success", the
    failure handler's response records "failure", a rejected request
    and a failed signer lookup record nothing. *)
Definition metricsAccounted (s : RelayState) (o : result Response * RelayState) : Prop :=
  let '(r, s') := o in
  match r with
  | Ok (ResponseData 0 _ None) => metrics s' = metrics s ++ [("success"%string, 1)]
  | Ok (ResponseData _ PNone (Some _)) => metrics s' = metrics s ++ [("failure"%string, 1)]
  | Ok (ErrorMessage _) => metrics s' = metrics s
  | Err _ => metrics s' = metrics s
  | Ok _ => False
  end.

(** More concrete data for the examples: the refund path of payment 1
    (settled with [confirm = false], then cancelled by the shop account 5
    with signature 3), a configuration of the consumer contract, and a
    relay whose ledger gives provider 8 the agent 9 and accepts a
    signature [a + 100] from account [a]. *)
Module DemoMore.
Import Demo.

Definition state2_refund := run (closeNewLoyaltyPayment convert keccak 1 42 false) state1.
Definition state3_refund :=
  run (openCancelLoyaltyPayment ecrecover sigCheck 1 (keccak 43) 3 blk0) state2_refund.
Definition state4_refund := run (closeCancelLoyaltyPayment keccak 1 43 true) state3_refund.

Definition sysAccountOf (_ : N) : N := 3.
Definition cfgReg : ConsumerConfig := mkConfig true 1 2 30 3 true 40 true 0.
Definition adminCalls : list AdminCall :=
  [CallSetLedger 1 50; CallSetShop 1 60; CallInitialize 7 8; CallSetLedger 9 70].

Definition agentOf (p : N) : result N := if p =? 8 then Ok 9 else Ok 0.
Definition nonce0 (_ : N) : result N := Ok 0.
Definition balance500 (_ : N) : result N := Ok 500.
Definition verify (a : N) (_ : RelayMessage) (sig : N) : bool := sig =? a + 100.
Definition send (_ : N) (_ : RelayTx) : result N := Ok 77.
Definition post (_ : N) : result unit := Ok tt.
Definition evm (e : string) : N * string := (1, e).
Definition relay0 : RelayState := mkRelayState ∅ [] [] [].
Definition req_agent : ProvisionRequest := mkRequest true 8 11 50 109.

(** Account 7 holds the largest uint256 amount of points. *)
Definition state_rich : State :=
  mkState ∅ 3 (<[7 := UINT256_MAX]> ∅) ∅ ∅
    100 4 (<[10 := mkShop ACTIVE "KRW" 5 6]> ∅) [] [].
Definition input_big : LoyaltyPaymentInputData :=
  mkInput 2 "P2" (2 ^ 255) "KRW" 10 7 4 (keccak 44).

End DemoMore.


(* ------------------------------------------------------------------ *)
(** ** Reasoning about the transaction monad *)

Lemma lookup0_upd0 (m : gmap N N) k v j :
  lookup0 (upd0 m k v) j = if decide (k = j) then v else lookup0 m j.
Proof.
  unfold lookup0, upd0. case_decide; subst.
  - by rewrite lookup_insert_eq.
  - by rewrite lookup_insert_ne.
Qed.

Lemma paymentOf_set s id p :
  paymentOf (set_loyaltyPayments (<[id := p]> (loyaltyPayments s)) s) id = p.
Proof. unfold paymentOf; simpl. by rewrite lookup_insert_eq. Qed.

Lemma paymentOf_set_ne s id id' p :
  id <> id' ->
  paymentOf (set_loyaltyPayments (<[id := p]> (loyaltyPayments s)) s) id' = paymentOf s id'.
Proof. intros. unfold paymentOf; simpl. by rewrite lookup_insert_ne. Qed.

Lemma status_eqb_true a b : status_eqb a b = true <-> a = b.
Proof. unfold status_eqb. apply bool_decide_eq_true. Qed.

Create HintDb monad.
#[global] Hint Unfold bind ret gets modify revert require getPayment setPayment
  updatePayment emit ECDSA_recover tryRecover _throwError checked_mul checked_add ledger_pointBalanceOf ledger_tokenBalanceOf
  ledger_nonceOf ledger_getPaymentFee ledger_getPaymentFeeAccount
  ledger_increaseNonce ledger_addPointBalance ledger_subPointBalance
  ledger_addTokenBalance ledger_subTokenBalance ledger_transferToken
  shop_shopOf shop_addUsedAmount shop_subUsedAmount : monad.

Ltac run_monad := repeat autounfold with monad; simpl.

(** Case on the first boolean test the symbolic run is stuck on. *)
Ltac split_bool :=
  match goal with
  | |- context [match ?c with true => _ | false => _ end] =>
      let E := fresh "E" in destruct c eqn:E
  | |- context [match ?c with
                | NoError => _ | InvalidSignature => _ | InvalidSignatureLength => _
                | InvalidSignatureS => _ | InvalidSignatureV => _ end] =>
      let E := fresh "E" in destruct c eqn:E
  end.

Ltac sym := run_monad; repeat (split_bool; simpl).

(** Turn boolean tests into propositions. *)
Ltac norm_bool :=
  repeat match goal with
  | H : (_ <=? _) = true |- _ => apply N.leb_le in H
  | H : (_ <=? _) = false |- _ => apply N.leb_gt in H
  | H : (_ =? _) = true |- _ => apply N.eqb_eq in H
  | H : (_ =? _) = false |- _ => apply N.eqb_neq in H
  | H : status_eqb _ _ = true |- _ => apply status_eqb_true in H
  | H : status_eqb _ _ = false |- _ =>
      apply not_true_iff_false in H; rewrite status_eqb_true in H
  | H : negb _ = true |- _ => apply negb_true_iff in H
  | H : negb _ = false |- _ => apply negb_false_iff in H
  | H : (_ || _)%bool = true |- _ => apply orb_true_iff in H
  | H : (_ || _)%bool = false |- _ => apply orb_false_iff in H; destruct H
  | H : bool_decide _ = true |- _ => apply bool_decide_eq_true in H
  | H : bool_decide _ = false |- _ => apply bool_decide_eq_false in H
  end.

(** Read the balances, nonces and records of a state built by setters. *)
Ltac simpl_state :=
  unfold pointBalanceOf, tokenBalanceOf, nonceOf, paymentOf in *; simpl in *;
  repeat (progress rewrite ?lookup0_upd0, ?lookup_insert_eq in *; simpl in * ).

Ltac finish_state :=
  simpl_state; unfold temporaryAddress in *;
  repeat case_decide; subst; try congruence; try lia.

Section Proofs.

Variable convertCurrencyToPoint : N -> string -> N.
Variable convertPointToToken : N -> N.
Variable convertCurrency : N -> string -> string -> N.
Variable ecrecover : SignedMessage -> N -> N.
Variable signatureCheck : N -> RecoverError.
Variable keccakSecret : N -> N.

(** C1: the status guard of [openCancelLoyaltyPayment],
    [status != CLOSED_PAYMENT || status != FAILED_CANCEL], is true for every
    status, so the call never reverts with "1532". *)
Theorem openCancel_guard_is_tautology :
  (forall st : LoyaltyPaymentStatus,
     (negb (status_eqb st CLOSED_PAYMENT) || negb (status_eqb st FAILED_CANCEL))%bool = true) /\
  (forall id lock sig blk s,
     openCancelLoyaltyPayment ecrecover signatureCheck id lock sig blk s <> Err "1532").
Proof.
  split.
  - intros []; reflexivity.
  - intros. unfold openCancelLoyaltyPayment. sym; norm_bool; congruence.
Qed.

(** C8: [openCancelLoyaltyPayment] called after [timestamp + 7 days]
    reverts with "1534", whatever the signature. *)
Theorem openCancel_after_window_fails id lock sig blk s :
  timestamp (paymentOf s id) + 86400 * 7 < block_timestamp blk ->
  openCancelLoyaltyPayment ecrecover signatureCheck id lock sig blk s = Err "1534".
Proof.
  intros H. unfold openCancelLoyaltyPayment. sym; norm_bool; try lia; congruence.
Qed.

(** C6: when [keccak256(secret)] differs from the stored [secretLock],
    [closeNewLoyaltyPayment] and [closeCancelLoyaltyPayment] revert, so no
    status or balance changes. *)
Theorem close_wrong_secret_reverts id secret confirm s :
  keccakSecret secret <> secretLock (paymentOf s id) ->
  (exists e, closeNewLoyaltyPayment convertCurrency keccakSecret id secret confirm s = Err e) /\
  (exists e, closeCancelLoyaltyPayment keccakSecret id secret confirm s = Err e).
Proof.
  intros H. split.
  - unfold closeNewLoyaltyPayment. sym; norm_bool; eauto; congruence.
  - unfold closeCancelLoyaltyPayment. sym; norm_bool; eauto; congruence.
Qed.

(** C5 (amended): an [openNewLoyaltyPayment] on a fresh id whose signature
    recovers to the payer ([ECDSA.recover] returns the payer without
    reverting), whose checked products and sums [amount * fee] and
    [paidPoint + feePoint] stay within uint256, and whose payer's points
    cover [paidPoint + feePoint], succeeds; the record is OPENED_PAYMENT,
    the holding account gains [paidPoint + feePoint], the payer loses the
    same amount and the payer's nonce grows by 1. *)
Theorem openPayment_valid_effects data blk s :
  let msg := MsgPayment (in_paymentId data) (in_purchaseId data) (in_amount data)
               (in_currency data) (in_shopId data) (in_account data)
               (block_chainid blk) (nonceOf s (in_account data)) in
  let paid := convertCurrencyToPoint (in_amount data) (in_currency data) in
  let feeP := convertCurrencyToPoint
                (zeroGWEI (in_amount data * paymentFee s / 10000)) (in_currency data) in
  status (paymentOf s (in_paymentId data)) = INVALID ->
  tryRecover ecrecover signatureCheck msg (in_signature data) = (in_account data, NoError) ->
  in_amount data * paymentFee s <= UINT256_MAX ->
  paid + feeP <= UINT256_MAX ->
  paid + feeP <= pointBalanceOf s (in_account data) ->
  exists s',
    openNewLoyaltyPayment convertCurrencyToPoint convertPointToToken ecrecover signatureCheck
      data blk s = Ok (tt, s') /\
    let p := paymentOf s' (in_paymentId data) in
    status p = OPENED_PAYMENT /\
    paidPoint p + feePoint p = paid + feeP /\
    pointBalanceOf s' temporaryAddress
      = pointBalanceOf s temporaryAddress + (paidPoint p + feePoint p) /\
    pointBalanceOf s' (in_account data) + (paidPoint p + feePoint p)
      = pointBalanceOf s (in_account data) /\
    nonceOf s' (in_account data) = nonceOf s (in_account data) + 1.
Proof.
  intros msg paid feeP Hst Hsig Hmul Hadd Hbal. subst msg paid feeP.
  unfold tryRecover in Hsig.
  unfold openNewLoyaltyPayment, _openNewLoyaltyPaymentPoint. sym; norm_bool;
    rewrite ?E in Hsig; try (injection Hsig as ? ?); try discriminate;
    try (exfalso; simpl_state; (congruence || lia)).
  eexists; split; [reflexivity|].
  simpl_state. unfold temporaryAddress in *.
  repeat case_decide; subst; try congruence.
  repeat split; lia.
Qed.

(** C7: after a successful [openNewLoyaltyPayment], the refund
    [closeNewLoyaltyPayment(confirm = false)] with the right secret
    succeeds, gives the payer back exactly the pre-open balance and sets
    FAILED_PAYMENT. *)
Theorem open_then_refund_restores_payer data blk secret s0 s1 :
  openNewLoyaltyPayment convertCurrencyToPoint convertPointToToken ecrecover signatureCheck data blk s0
    = Ok (tt, s1) ->
  keccakSecret secret = in_secretLock data ->
  exists s2,
    closeNewLoyaltyPayment convertCurrency keccakSecret (in_paymentId data) secret false s1
      = Ok (tt, s2) /\
    pointBalanceOf s2 (in_account data) = pointBalanceOf s0 (in_account data) /\
    status (paymentOf s2 (in_paymentId data)) = FAILED_PAYMENT.
Proof.
  intros Hopen Hk. revert Hopen.
  unfold openNewLoyaltyPayment, _openNewLoyaltyPaymentPoint. sym; norm_bool;
    intros Hopen; try discriminate.
  injection Hopen as <-.
  unfold closeNewLoyaltyPayment. sym; norm_bool;
    try (exfalso; finish_state; fail).
  eexists; split; [reflexivity|]. finish_state.
  repeat split; try reflexivity; lia.
Qed.

End Proofs.
(** Replace a field that a case split found to be address 0. *)
Ltac rewrite_zero_eqs :=
  repeat match goal with
  | H : ?x = 0 |- _ => tryif is_var x then fail else (rewrite H in *; clear H)
  | H : 0 = ?x |- _ => tryif is_var x then fail else (rewrite <- H in *; clear H)
  end.


Lemma escrowed_empty : escrowed emptyPayment = 0.
Proof. reflexivity. Qed.

Lemma totalEscrow_empty : totalEscrow ∅ = 0.
Proof. unfold totalEscrow. by rewrite map_fold_empty. Qed.

Lemma totalEscrow_delete (m : gmap N LoyaltyPaymentData) i p :
  m !! i = Some p -> totalEscrow m = escrowed p + totalEscrow (delete i m).
Proof.
  intros Hi. unfold totalEscrow.
  apply (map_fold_delete_L (fun _ p acc => escrowed p + acc)); [intros; lia | done].
Qed.

Lemma totalEscrow_insert (m : gmap N LoyaltyPaymentData) i x :
  totalEscrow (<[i := x]> m) + escrowed (default emptyPayment (m !! i))
  = totalEscrow m + escrowed x.
Proof.
  assert (Hins : forall m', m' !! i = None ->
            totalEscrow (<[i := x]> m') = escrowed x + totalEscrow m').
  { intros m' Hm'. unfold totalEscrow.
    apply (map_fold_insert_L (fun _ p acc => escrowed p + acc)); [intros; lia | done]. }
  destruct (m !! i) as [p|] eqn:Hi; simpl.
  - rewrite <- insert_delete_eq, Hins by apply lookup_delete_eq.
    rewrite (totalEscrow_delete m i p Hi). lia.
  - rewrite Hins by done. rewrite escrowed_empty. lia.
Qed.

Lemma totalEscrow_ge (m : gmap N LoyaltyPaymentData) i :
  escrowed (default emptyPayment (m !! i)) <= totalEscrow m.
Proof.
  destruct (m !! i) as [p|] eqn:Hi; simpl.
  - rewrite (totalEscrow_delete m i p Hi). lia.
  - rewrite escrowed_empty. lia.
Qed.

Lemma escrowInv_holding s id :
  escrowInv s -> escrowed (paymentOf s id) <= pointBalanceOf s temporaryAddress.
Proof.
  intros [_ H]. unfold paymentOf. etransitivity; [apply totalEscrow_ge | exact H].
Qed.

Lemma escrowInv_account0 s id :
  escrowInv s -> account (paymentOf s id) = temporaryAddress ->
  paidPoint (paymentOf s id) + feePoint (paymentOf s id) = 0.
Proof.
  intros [H _]. unfold paymentOf.
  destruct (loyaltyPayments s !! id) eqn:Hi; simpl; [by apply (H id) | reflexivity].
Qed.

(** Writing one record keeps the invariant when the holding account grows
    by at least the change of that record's escrow. *)
Lemma escrowInv_update s s' id p' :
  escrowInv s ->
  loyaltyPayments s' = <[id := p']> (loyaltyPayments s) ->
  (account p' = temporaryAddress -> paidPoint p' + feePoint p' = 0) ->
  escrowed p' + pointBalanceOf s temporaryAddress
    <= pointBalanceOf s' temporaryAddress + escrowed (paymentOf s id) ->
  escrowInv s'.
Proof.
  intros [H1 H2] Hm Hp' Hbal. split.
  - intros j q. rewrite Hm. destruct (decide (id = j)) as [<-|Hne].
    + rewrite lookup_insert_eq. intros [= <-]. exact Hp'.
    + rewrite lookup_insert_ne by done. apply H1.
  - rewrite Hm. pose proof (totalEscrow_insert (loyaltyPayments s) id p').
    unfold paymentOf in Hbal. lia.
Qed.

Section Reach.

Variable convertCurrencyToPoint : N -> string -> N.
Variable convertPointToToken : N -> N.
Variable convertCurrency : N -> string -> string -> N.
Variable ecrecover : SignedMessage -> N -> N.
Variable signatureCheck : N -> RecoverError.
Variable keccakSecret : N -> N.

Lemma escrowed_status p :
  escrowed p = match status p with
               | OPENED_PAYMENT | OPENED_CANCEL => paidPoint p + feePoint p
               | _ => 0 end.
Proof. reflexivity. Qed.

Lemma openPayment_escrowInv data blk s s' :
  escrowInv s ->
  openNewLoyaltyPayment convertCurrencyToPoint convertPointToToken ecrecover signatureCheck data blk s
    = Ok (tt, s') -> escrowInv s'.
Proof.
  intros Hinv H. revert H.
  unfold openNewLoyaltyPayment, _openNewLoyaltyPaymentPoint. sym; norm_bool;
    intros H; try discriminate.
  injection H as <-.
  assert (Hz : escrowed (paymentOf s (in_paymentId data)) = 0)
    by (rewrite escrowed_status; match goal with H : status _ = INVALID |- _ => rewrite H end; reflexivity).
  eapply (escrowInv_update _ _ (in_paymentId data)); [exact Hinv | simpl; reflexivity | ..].
  - simpl. intros Ha. unfold temporaryAddress in *. congruence.
  - rewrite Hz. rewrite escrowed_status. simpl. finish_state.
Qed.

Ltac rewrite_status :=
  repeat match goal with
  | H : status ?p = ?c |- context [status ?p] => rewrite H
  end.

Ltac escrow_step Hinv s id :=
  pose proof (escrowInv_account0 s id Hinv) as Ha0;
  eapply (escrowInv_update _ _ id);
    [ exact Hinv | simpl; rewrite ?insert_insert_eq; reflexivity | .. ];
  rewrite ?escrowed_status; simpl_state; rewrite_status; simpl;
  unfold temporaryAddress in *; repeat case_decide; subst; try congruence; try lia;
  try (match goal with
       | H : account _ = _ |- _ => rewrite H in *; lia
       | H : _ = account _ |- _ => rewrite <- H in *; lia
       end).

Lemma closePayment_escrowInv id secret confirm s s' :
  escrowInv s ->
  closeNewLoyaltyPayment convertCurrency keccakSecret id secret confirm s = Ok (tt, s') ->
  escrowInv s'.
Proof.
  intros Hinv H. revert H.
  unfold closeNewLoyaltyPayment. sym; norm_bool; intros Hr; try discriminate.
  all: injection Hr as <-; escrow_step Hinv s id.
Qed.

Lemma openCancel_escrowInv id lock sig blk s s' :
  escrowInv s ->
  openCancelLoyaltyPayment ecrecover signatureCheck id lock sig blk s = Ok (tt, s') ->
  escrowInv s'.
Proof.
  intros Hinv H. revert H.
  unfold openCancelLoyaltyPayment. sym; norm_bool; intros Hr; try discriminate.
  all: injection Hr as <-; escrow_step Hinv s id.
Qed.

Lemma closeCancel_escrowInv id secret confirm s s' :
  escrowInv s ->
  closeCancelLoyaltyPayment keccakSecret id secret confirm s = Ok (tt, s') ->
  escrowInv s'.
Proof.
  intros Hinv H. revert H.
  unfold closeCancelLoyaltyPayment. sym; norm_bool; intros Hr; try discriminate.
  all: injection Hr as <-; escrow_step Hinv s id.
Qed.


Lemma step_escrowInv s s' :
  escrowInv s ->
  step convertCurrencyToPoint convertPointToToken convertCurrency ecrecover signatureCheck keccakSecret s s' ->
  escrowInv s'.
Proof.
  intros Hinv Hs. destruct Hs as [? ? ? ? H|? ? ? ? ? H|? ? ? ? ? ? H|? ? ? ? ? H|? ? Hm Hb].
  - eapply openPayment_escrowInv; eauto.
  - eapply closePayment_escrowInv; eauto.
  - eapply openCancel_escrowInv; eauto.
  - eapply closeCancel_escrowInv; eauto.
  - destruct Hinv as [H1 H2]. split; rewrite Hm; [exact H1 | lia].
Qed.

Lemma reachable_escrowInv s :
  reachable convertCurrencyToPoint convertPointToToken convertCurrency ecrecover signatureCheck keccakSecret s ->
  escrowInv s.
Proof.
  induction 1 as [s Hm | s s' _ IH Hs].
  - split.
    + intros id p. rewrite Hm. by rewrite lookup_empty.
    + rewrite Hm, totalEscrow_empty. lia.
  - eapply step_escrowInv; eauto.
Qed.

(** C3: in a reachable state, [closeNewLoyaltyPayment(confirm = true)] on
    an OPENED_PAYMENT record with the right secret, while the system
    account holds fewer tokens than [feeToken], still succeeds: no token
    moves, the holding account is debited [paidPoint + feePoint], an active
    shop's usage is recorded and the status becomes CLOSED_PAYMENT. *)
Theorem closePayment_fee_shortfall_skipped id secret s :
  reachable convertCurrencyToPoint convertPointToToken convertCurrency ecrecover signatureCheck keccakSecret s ->
  status (paymentOf s id) = OPENED_PAYMENT ->
  keccakSecret secret = secretLock (paymentOf s id) ->
  tokenBalanceOf s (systemAccount s) < feeToken (paymentOf s id) ->
  let p := paymentOf s id in
  let shop := default emptyShop (shops s !! shopId p) in
  exists s',
    closeNewLoyaltyPayment convertCurrency keccakSecret id secret true s = Ok (tt, s') /\
    pointBalanceOf s' temporaryAddress + (paidPoint p + feePoint p)
      = pointBalanceOf s temporaryAddress /\
    (forall a, tokenBalanceOf s' a = tokenBalanceOf s a) /\
    usedAmountLog s' = usedAmountLog s ++
      (if bool_decide (shop_status shop = ACTIVE)
       then [UsedAdd (shopId p) (convertCurrency (paidValue p) (currency p) (shop_currency shop))
               (purchaseId p) id]
       else []) /\
    status (paymentOf s' id) = CLOSED_PAYMENT.
Proof.
  intros Hr Hst Hk Htok p shop. subst p shop.
  pose proof (escrowInv_holding s id (reachable_escrowInv s Hr)) as Hhold.
  rewrite escrowed_status, Hst in Hhold.
  unfold closeNewLoyaltyPayment. sym; norm_bool;
    try (exfalso; finish_state; fail).
  all: eexists; split; [reflexivity|].
  all: finish_state.
  all: repeat split; intros; try reflexivity; try lia; by rewrite app_nil_r.
Qed.

(** C10: in a reachable state, a successful
    [closeCancelLoyaltyPayment(confirm = false)] leaves the payer's points
    and the used-amount ledger unchanged, reports the payer's previous
    balance in its event, sets FAILED_CANCEL, debits the holding account
    [paidPoint + feePoint] and moves [feeToken] from the holding account to
    the fee-collection account. *)
Theorem closeCancel_refuse_frame id secret s s' :
  reachable convertCurrencyToPoint convertPointToToken convertCurrency ecrecover signatureCheck keccakSecret s ->
  closeCancelLoyaltyPayment keccakSecret id secret false s = Ok (tt, s') ->
  let p := paymentOf s id in
  pointBalanceOf s' (account p) = pointBalanceOf s (account p) /\
  usedAmountLog s' = usedAmountLog s /\
  events s' = events s ++ [mkEvent (paymentOf s' id) (pointBalanceOf s (account p))] /\
  status (paymentOf s' id) = FAILED_CANCEL /\
  pointBalanceOf s' temporaryAddress + (paidPoint p + feePoint p)
    = pointBalanceOf s temporaryAddress /\
  (forall a, tokenBalanceOf s' a + (if decide (a = temporaryAddress) then feeToken p else 0)
             = tokenBalanceOf s a + (if decide (a = paymentFeeAccount s) then feeToken p else 0)).
Proof.
  intros Hr H p. subst p.
  pose proof (escrowInv_account0 s id (reachable_escrowInv s Hr)) as Ha0.
  revert H. unfold closeCancelLoyaltyPayment. sym; norm_bool; intros H; try discriminate.
  injection H as <-.
  repeat split; try intros a; finish_state;
    rewrite_zero_eqs; try specialize (Ha0 eq_refl); simpl_state;
    repeat f_equal; lia.
Qed.

End Reach.

Section Cancel.

Variable ecrecover : SignedMessage -> N -> N.
Variable signatureCheck : N -> RecoverError.

(** C4: if the fee-collection account holds fewer tokens than [feeToken],
    [openCancelLoyaltyPayment] reverts (so nothing changes), with "1513"
    once the window and signature checks pass; with enough tokens it moves
    [feeToken] from the fee-collection account to the holding account,
    credits the holding account [paidPoint + feePoint], stores the new
    [secretLock] and sets OPENED_CANCEL. *)
Theorem openCancel_fee_shortfall_is_fatal id lock sig blk s :
  let p := paymentOf s id in
  let fa := paymentFeeAccount s in
  (tokenBalanceOf s fa < feeToken p ->
     exists e, openCancelLoyaltyPayment ecrecover signatureCheck id lock sig blk s = Err e) /\
  (block_timestamp blk <= timestamp p + 86400 * 7 ->
   cancelSignatureOk ecrecover signatureCheck s id sig blk ->
   tokenBalanceOf s fa < feeToken p ->
     openCancelLoyaltyPayment ecrecover signatureCheck id lock sig blk s = Err "1513") /\
  (block_timestamp blk <= timestamp p + 86400 * 7 ->
   cancelSignatureOk ecrecover signatureCheck s id sig blk ->
   feeToken p <= tokenBalanceOf s fa ->
   exists s',
     openCancelLoyaltyPayment ecrecover signatureCheck id lock sig blk s = Ok (tt, s') /\
     (forall a, tokenBalanceOf s' a + (if decide (a = fa) then feeToken p else 0)
                = tokenBalanceOf s a + (if decide (a = temporaryAddress) then feeToken p else 0)) /\
     pointBalanceOf s' temporaryAddress
       = pointBalanceOf s temporaryAddress + (paidPoint p + feePoint p) /\
     (forall a, a <> temporaryAddress -> pointBalanceOf s' a = pointBalanceOf s a) /\
     secretLock (paymentOf s' id) = lock /\
     status (paymentOf s' id) = OPENED_CANCEL).
Proof.
  intros p fa. subst p fa. split; [|split].
  - intros Hlow. unfold openCancelLoyaltyPayment. sym; norm_bool; eauto.
    all: exfalso; finish_state.
  - intros Hwin Hsig Hlow. unfold cancelSignatureOk in Hsig; simpl in Hsig.
    destruct Hsig as (Hr1 & Hr2 & Hpass).
    unfold openCancelLoyaltyPayment. sym; norm_bool; finish_state; intuition congruence.
  - intros Hwin Hsig Henough. unfold cancelSignatureOk in Hsig; simpl in Hsig.
    destruct Hsig as (Hr1 & Hr2 & Hpass).
    unfold openCancelLoyaltyPayment. sym; norm_bool;
      try (exfalso; finish_state; intuition congruence).
    all: eexists; split; [reflexivity|].
    all: repeat split; try intros a; try intros Ha; finish_state;
      rewrite_zero_eqs; simpl_state; lia.
Qed.

End Cancel.

Lemma indicatorSum_in L k d :
  NoDup L -> In k L -> indicatorSum L k d = d.
Proof.
  induction L as [|a L IH]; simpl; [tauto|].
  intros Hnd Hin. apply NoDup_cons in Hnd as [Hnot Hnd].
  assert (Hz : forall L', ~ In k L' -> indicatorSum L' k d = 0).
  { induction L' as [|b L' IH']; simpl; [done|].
    intros Hn. case_decide; [subst; tauto|]. rewrite IH'; [lia|tauto]. }
  case_decide as Hak.
  - subst. rewrite Hz; [lia|]. intros Hk. apply Hnot. by apply list_elem_of_In.
  - destruct Hin as [->|Hin]; [congruence|]. rewrite IH by done. lia.
Qed.

Lemma pointSupply_delta s s' L k1 d1 k2 d2 :
  NoDup L -> In k1 L -> In k2 L ->
  (forall a, pointBalanceOf s' a + (if decide (a = k1) then d1 else 0)
             = pointBalanceOf s a + (if decide (a = k2) then d2 else 0)) ->
  pointSupply s' L + d1 = pointSupply s L + d2.
Proof.
  intros Hnd Hin1 Hin2 Hpt.
  assert (Hsum : forall L', pointSupply s' L' + indicatorSum L' k1 d1
                           = pointSupply s L' + indicatorSum L' k2 d2).
  { induction L' as [|a L' IH]; simpl; [done|]. specialize (Hpt a). lia. }
  specialize (Hsum L). rewrite !indicatorSum_in in Hsum by done. exact Hsum.
Qed.

Section Supply.

Variable convertCurrencyToPoint : N -> string -> N.
Variable convertPointToToken : N -> N.
Variable convertCurrency : N -> string -> string -> N.
Variable ecrecover : SignedMessage -> N -> N.
Variable signatureCheck : N -> RecoverError.
Variable keccakSecret : N -> N.

Ltac point_delta :=
  intros a; finish_state; rewrite_zero_eqs; simpl_state; lia.

(** C2 (amended): over any duplicate-free list of accounts that contains
    the holding account (and the payer, where the payer's points move),
    [openNewLoyaltyPayment] and the refund [closeNewLoyaltyPayment(false)]
    keep the point total; [closeNewLoyaltyPayment(true)] burns
    [paidPoint + feePoint] from it; [openCancelLoyaltyPayment] mints
    [paidPoint + feePoint] into the holding account; and
    [closeCancelLoyaltyPayment(false)] burns it again. *)
Theorem escrow_supply_by_transition (L : list N) :
  NoDup L -> In temporaryAddress L ->
  (forall data blk s s',
     openNewLoyaltyPayment convertCurrencyToPoint convertPointToToken ecrecover signatureCheck data blk s
       = Ok (tt, s') ->
     In (in_account data) L ->
     pointSupply s' L = pointSupply s L) /\
  (forall id secret s s',
     closeNewLoyaltyPayment convertCurrency keccakSecret id secret false s = Ok (tt, s') ->
     In (account (paymentOf s id)) L ->
     pointSupply s' L = pointSupply s L) /\
  (forall id secret s s',
     closeNewLoyaltyPayment convertCurrency keccakSecret id secret true s = Ok (tt, s') ->
     pointSupply s' L + (paidPoint (paymentOf s id) + feePoint (paymentOf s id))
       = pointSupply s L) /\
  (forall id lock sig blk s s',
     openCancelLoyaltyPayment ecrecover signatureCheck id lock sig blk s = Ok (tt, s') ->
     pointSupply s' L
       = pointSupply s L + (paidPoint (paymentOf s id) + feePoint (paymentOf s id))) /\
  (forall id secret s s',
     closeCancelLoyaltyPayment keccakSecret id secret false s = Ok (tt, s') ->
     pointSupply s' L + (paidPoint (paymentOf s id) + feePoint (paymentOf s id))
       = pointSupply s L).
Proof.
  intros Hnd Htmp. split; [|split; [|split; [|split]]].
  - intros data blk s s' H Hacc. revert H.
    unfold openNewLoyaltyPayment, _openNewLoyaltyPaymentPoint. sym; norm_bool;
      intros Hr; try discriminate. injection Hr as <-.
    apply (N.add_cancel_r _ _
      (convertCurrencyToPoint (in_amount data) (in_currency data) +
       convertCurrencyToPoint (zeroGWEI (in_amount data * paymentFee s / 10000))
         (in_currency data))).
    apply (pointSupply_delta _ _ _ (in_account data) _ temporaryAddress); auto.
    point_delta.
  - intros id secret s s' H Hacc. revert H.
    unfold closeNewLoyaltyPayment. sym; norm_bool; intros Hr; try discriminate.
    injection Hr as <-.
    apply (N.add_cancel_r _ _ (paidPoint (paymentOf s id) + feePoint (paymentOf s id))).
    apply (pointSupply_delta _ _ _ temporaryAddress _ (account (paymentOf s id))); auto.
    point_delta.
  - intros id secret s s' H. revert H.
    unfold closeNewLoyaltyPayment. sym; norm_bool; intros Hr; try discriminate.
    all: injection Hr as <-.
    all: rewrite <- (N.add_0_r (pointSupply s L)).
    all: apply (pointSupply_delta _ _ _ temporaryAddress _ temporaryAddress); auto.
    all: point_delta.
  - intros id lock sig blk s s' H. revert H.
    unfold openCancelLoyaltyPayment. sym; norm_bool; intros Hr; try discriminate.
    all: injection Hr as <-.
    all: rewrite <- (N.add_0_r (pointSupply _ L)).
    all: apply (pointSupply_delta _ _ _ temporaryAddress _ temporaryAddress); auto.
    all: point_delta.
  - intros id secret s s' H. revert H.
    unfold closeCancelLoyaltyPayment. sym; norm_bool; intros Hr; try discriminate.
    injection Hr as <-.
    rewrite <- (N.add_0_r (pointSupply s L)).
    apply (pointSupply_delta _ _ _ temporaryAddress _ temporaryAddress); auto.
    point_delta.
Qed.

End Supply.

(* ------------------------------------------------------------------ *)
(** ** The rest of the consumer: views, framing, events, nonces *)

Ltac ok_run := sym; norm_bool; intros Hrun; try discriminate; injection Hrun as <-.

Section Consumer.

Variable convertCurrencyToPoint : N -> string -> N.
Variable convertPointToToken : N -> N.
Variable convertCurrency : N -> string -> string -> N.
Variable ecrecover : SignedMessage -> N -> N.
Variable signatureCheck : N -> RecoverError.
Variable keccakSecret : N -> N.



Lemma ev_open data blk s s' :
  openNewLoyaltyPayment convertCurrencyToPoint convertPointToToken ecrecover signatureCheck data blk s = Ok (tt, s') ->
  events s' = events s ++ [mkEvent (paymentOf s' (in_paymentId data))
                            (pointBalanceOf s' (account (paymentOf s' (in_paymentId data))))].
Proof.
  unfold openNewLoyaltyPayment, _openNewLoyaltyPaymentPoint. ok_run. simpl_state. reflexivity.
Qed.
Lemma ev_cp id secret confirm s s' :
  closeNewLoyaltyPayment convertCurrency keccakSecret id secret confirm s = Ok (tt, s') ->
  events s' = events s ++ [mkEvent (paymentOf s' id) (pointBalanceOf s' (account (paymentOf s' id)))].
Proof.
  unfold closeNewLoyaltyPayment. ok_run. all: simpl_state; reflexivity.
Qed.
Lemma ev_oc id lock sig blk s s' :
  openCancelLoyaltyPayment ecrecover signatureCheck id lock sig blk s = Ok (tt, s') ->
  events s' = events s ++ [mkEvent (paymentOf s' id) (pointBalanceOf s' (account (paymentOf s' id)))].
Proof.
  unfold openCancelLoyaltyPayment. ok_run. all: simpl_state; reflexivity.
Qed.
Lemma ev_cc id secret confirm s s' :
  closeCancelLoyaltyPayment keccakSecret id secret confirm s = Ok (tt, s') ->
  events s' = events s ++ [mkEvent (paymentOf s' id) (pointBalanceOf s' (account (paymentOf s' id)))].
Proof.
  unfold closeCancelLoyaltyPayment. ok_run. all: simpl_state; reflexivity.
Qed.

Lemma nonce_open data blk s s' :
  openNewLoyaltyPayment convertCurrencyToPoint convertPointToToken ecrecover signatureCheck data blk s = Ok (tt, s') ->
  forall a, nonceOf s' a = nonceOf s a + (if decide (a = in_account data) then 1 else 0).
Proof.
  unfold openNewLoyaltyPayment, _openNewLoyaltyPaymentPoint. ok_run. intros a. finish_state.
Qed.
Lemma nonce_cp id secret confirm s s' :
  closeNewLoyaltyPayment convertCurrency keccakSecret id secret confirm s = Ok (tt, s') ->
  forall a, nonceOf s' a = nonceOf s a.
Proof. unfold closeNewLoyaltyPayment. ok_run. all: intros a; finish_state. Qed.
Lemma nonce_oc id lock sig blk s s' :
  openCancelLoyaltyPayment ecrecover signatureCheck id lock sig blk s = Ok (tt, s') ->
  forall a, nonceOf s' a = nonceOf s a +
    (if decide (a = shop_account (default emptyShop (shops s !! shopId (paymentOf s id)))) then 1 else 0).
Proof. unfold openCancelLoyaltyPayment. ok_run. all: intros a; finish_state. Qed.
Lemma nonce_cc id secret confirm s s' :
  closeCancelLoyaltyPayment keccakSecret id secret confirm s = Ok (tt, s') ->
  forall a, nonceOf s' a = nonceOf s a.
Proof. unfold closeCancelLoyaltyPayment. ok_run. all: intros a; finish_state. Qed.

Lemma status_open data blk s s' :
  openNewLoyaltyPayment convertCurrencyToPoint convertPointToToken ecrecover signatureCheck data blk s = Ok (tt, s') ->
  status (paymentOf s (in_paymentId data)) = INVALID /\ status (paymentOf s' (in_paymentId data)) = OPENED_PAYMENT.
Proof.
  unfold openNewLoyaltyPayment, _openNewLoyaltyPaymentPoint. ok_run. simpl_state. auto.
Qed.
Lemma status_cp id secret confirm s s' :
  closeNewLoyaltyPayment convertCurrency keccakSecret id secret confirm s = Ok (tt, s') ->
  status (paymentOf s id) = OPENED_PAYMENT /\
  status (paymentOf s' id) = if confirm then CLOSED_PAYMENT else FAILED_PAYMENT.
Proof. unfold closeNewLoyaltyPayment. destruct confirm; ok_run. all: simpl_state; auto. Qed.
Lemma status_oc id lock sig blk s s' :
  openCancelLoyaltyPayment ecrecover signatureCheck id lock sig blk s = Ok (tt, s') ->
  status (paymentOf s' id) = OPENED_CANCEL.
Proof. unfold openCancelLoyaltyPayment. ok_run. all: simpl_state; auto. Qed.
Lemma status_cc id secret confirm s s' :
  closeCancelLoyaltyPayment keccakSecret id secret confirm s = Ok (tt, s') ->
  status (paymentOf s id) = OPENED_CANCEL /\
  status (paymentOf s' id) = if confirm then CLOSED_CANCEL else FAILED_CANCEL.
Proof. unfold closeCancelLoyaltyPayment. destruct confirm; ok_run. all: simpl_state; auto. Qed.
Lemma frame_cp id secret confirm s s' :
  closeNewLoyaltyPayment convertCurrency keccakSecret id secret confirm s = Ok (tt, s') ->
  forall id', id' <> id -> paymentOf s' id' = paymentOf s id'.
Proof.
  unfold closeNewLoyaltyPayment. ok_run.
  all: intros id' Hne; unfold paymentOf; simpl; rewrite ?lookup_insert_ne by congruence; reflexivity.
Qed.

Lemma frame_open data blk s s' :
  openNewLoyaltyPayment convertCurrencyToPoint convertPointToToken ecrecover signatureCheck data blk s = Ok (tt, s') ->
  forall id', id' <> in_paymentId data -> paymentOf s' id' = paymentOf s id'.
Proof.
  unfold openNewLoyaltyPayment, _openNewLoyaltyPaymentPoint. ok_run.
  all: intros id' Hne; unfold paymentOf; simpl; rewrite ?lookup_insert_ne by congruence; reflexivity.
Qed.
Lemma frame_oc id lock sig blk s s' :
  openCancelLoyaltyPayment ecrecover signatureCheck id lock sig blk s = Ok (tt, s') ->
  forall id', id' <> id -> paymentOf s' id' = paymentOf s id'.
Proof.
  unfold openCancelLoyaltyPayment. ok_run.
  all: intros id' Hne; unfold paymentOf; simpl; rewrite ?lookup_insert_ne by congruence; reflexivity.
Qed.
Lemma frame_cc id secret confirm s s' :
  closeCancelLoyaltyPayment keccakSecret id secret confirm s = Ok (tt, s') ->
  forall id', id' <> id -> paymentOf s' id' = paymentOf s id'.
Proof.
  unfold closeCancelLoyaltyPayment. ok_run.
  all: intros id' Hne; unfold paymentOf; simpl; rewrite ?lookup_insert_ne by congruence; reflexivity.
Qed.


Lemma isAvailable_false s id :
  isAvailablePaymentId s id = false <-> status (paymentOf s id) <> INVALID.
Proof.
  unfold isAvailablePaymentId, loyaltyPaymentOf.
  destruct (status_eqb _ _) eqn:E; norm_bool; intuition congruence.
Qed.

Lemma step_keeps_used s s' id :
  step convertCurrencyToPoint convertPointToToken convertCurrency ecrecover signatureCheck keccakSecret s s' ->
  isAvailablePaymentId s id = false -> isAvailablePaymentId s' id = false.
Proof.
  rewrite !isAvailable_false. intros Hs Hu.
  destruct Hs as [data blk ? ? H|i secret confirm ? ? H|i lock sig blk ? ? H|i secret confirm ? ? H|? ? Hm _].
  - destruct (decide (id = in_paymentId data)) as [->|Hne].
    + apply status_open in H as [_ ->]. discriminate.
    + erewrite frame_open by eauto. exact Hu.
  - destruct (decide (id = i)) as [->|Hne].
    + apply status_cp in H as [_ ->]. destruct confirm; discriminate.
    + erewrite frame_cp by eauto. exact Hu.
  - destruct (decide (id = i)) as [->|Hne].
    + apply status_oc in H as ->. discriminate.
    + erewrite frame_oc by eauto. exact Hu.
  - destruct (decide (id = i)) as [->|Hne].
    + apply status_cc in H as [_ ->]. destruct confirm; discriminate.
    + erewrite frame_cc by eauto. exact Hu.
  - unfold paymentOf in *. rewrite Hm. exact Hu.
Qed.




Lemma open_run data blk s s' :
  openNewLoyaltyPayment convertCurrencyToPoint convertPointToToken ecrecover signatureCheck data blk s = Ok (tt, s') ->
  let p := paymentOf s' (in_paymentId data) in
  in_account data <> 0 /\ account p = in_account data /\
  pointBalanceOf s' (in_account data) + (paidPoint p + feePoint p) = pointBalanceOf s (in_account data).
Proof.
  unfold openNewLoyaltyPayment, _openNewLoyaltyPaymentPoint. ok_run. simpl.
  repeat split; finish_state.
Qed.

Lemma refund_run id secret s s' :
  closeNewLoyaltyPayment convertCurrency keccakSecret id secret false s = Ok (tt, s') ->
  let p := paymentOf s id in
  paymentOf s' id = with_status FAILED_PAYMENT p /\
  (forall a, a <> temporaryAddress ->
     pointBalanceOf s' a = pointBalanceOf s a + (if decide (a = account p) then paidPoint p + feePoint p else 0)).
Proof.
  unfold closeNewLoyaltyPayment. ok_run. simpl.
  repeat split; try intros a Ha; finish_state.
Qed.

Lemma settle_run id secret s s' :
  closeNewLoyaltyPayment convertCurrency keccakSecret id secret true s = Ok (tt, s') ->
  let p := paymentOf s id in
  let shop := default emptyShop (shops s !! shopId p) in
  shop_status shop = ACTIVE ->
  let v := convertCurrency (paidValue p) (currency p) (shop_currency shop) in
  paymentOf s' id = with_status CLOSED_PAYMENT (with_usedValueShop v p) /\
  usedAmountLog s' = usedAmountLog s ++ [UsedAdd (shopId p) v (purchaseId p) id].
Proof.
  unfold closeNewLoyaltyPayment. ok_run; simpl; intros Hact; simpl_state; try congruence.
  all: split; reflexivity.
Qed.

Lemma openCancel_run id lock sig blk s s' :
  openCancelLoyaltyPayment ecrecover signatureCheck id lock sig blk s = Ok (tt, s') ->
  let p := paymentOf s id in
  paymentOf s' id = with_status OPENED_CANCEL (with_secretLock lock p) /\
  usedAmountLog s' = usedAmountLog s /\
  (forall a, a <> temporaryAddress -> pointBalanceOf s' a = pointBalanceOf s a).
Proof.
  unfold openCancelLoyaltyPayment. ok_run. all: simpl; repeat split; try intros a Ha; finish_state.
Qed.

Lemma cancel_confirm_run id secret s s' :
  closeCancelLoyaltyPayment keccakSecret id secret true s = Ok (tt, s') ->
  let p := paymentOf s id in
  (forall a, pointBalanceOf s' a
             = pointBalanceOf s a + (if decide (a = account p) then paidPoint p + feePoint p else 0)) /\
  (forall a, tokenBalanceOf s' a + (if decide (a = temporaryAddress) then feeToken p else 0)
             = tokenBalanceOf s a + (if decide (a = systemAccount s) then feeToken p else 0)) /\
  usedAmountLog s' = usedAmountLog s ++ [UsedSub (shopId p) (usedValueShop p) (purchaseId p) id] /\
  paymentOf s' id = with_status CLOSED_CANCEL p.
Proof.
  unfold closeCancelLoyaltyPayment. ok_run. simpl.
  repeat split; try intros a; finish_state; rewrite_zero_eqs; simpl_state; lia.
Qed.


(** X1: A successful call of any of the four entry points (openNewLoyaltyPayment,
    closeNewLoyaltyPayment, openCancelLoyaltyPayment, closeCancelLoyaltyPayment) changes
    only the payment record of the id it is called with; every other record is left as it
    was. *)
Theorem entry_points_frame :
  (forall data blk s s',
     openNewLoyaltyPayment convertCurrencyToPoint convertPointToToken ecrecover signatureCheck data blk s
       = Ok (tt, s') ->
     forall id', id' <> in_paymentId data -> paymentOf s' id' = paymentOf s id') /\
  (forall id secret confirm s s',
     closeNewLoyaltyPayment convertCurrency keccakSecret id secret confirm s = Ok (tt, s') ->
     forall id', id' <> id -> paymentOf s' id' = paymentOf s id') /\
  (forall id lock sig blk s s',
     openCancelLoyaltyPayment ecrecover signatureCheck id lock sig blk s = Ok (tt, s') ->
     forall id', id' <> id -> paymentOf s' id' = paymentOf s id') /\
  (forall id secret confirm s s',
     closeCancelLoyaltyPayment keccakSecret id secret confirm s = Ok (tt, s') ->
     forall id', id' <> id -> paymentOf s' id' = paymentOf s id').
Proof.
  split; [|split; [|split]]; intros.
  - eapply frame_open; eauto.
  - eapply frame_cp; eauto.
  - eapply frame_oc; eauto.
  - eapply frame_cc; eauto.
Qed.

(** X2: Each successful entry-point call appends exactly one LoyaltyPaymentEvent to the
    event log, carrying the final payment record and the point balance of its payer after
    the call. *)
Theorem entry_points_event :
  (forall data blk s s',
     openNewLoyaltyPayment convertCurrencyToPoint convertPointToToken ecrecover signatureCheck data blk s
       = Ok (tt, s') ->
     let p := paymentOf s' (in_paymentId data) in
     events s' = events s ++ [mkEvent p (pointBalanceOf s' (account p))]) /\
  (forall id secret confirm s s',
     closeNewLoyaltyPayment convertCurrency keccakSecret id secret confirm s = Ok (tt, s') ->
     let p := paymentOf s' id in
     events s' = events s ++ [mkEvent p (pointBalanceOf s' (account p))]) /\
  (forall id lock sig blk s s',
     openCancelLoyaltyPayment ecrecover signatureCheck id lock sig blk s = Ok (tt, s') ->
     let p := paymentOf s' id in
     events s' = events s ++ [mkEvent p (pointBalanceOf s' (account p))]) /\
  (forall id secret confirm s s',
     closeCancelLoyaltyPayment keccakSecret id secret confirm s = Ok (tt, s') ->
     let p := paymentOf s' id in
     events s' = events s ++ [mkEvent p (pointBalanceOf s' (account p))]).
Proof.
  split; [|split; [|split]]; intros.
  - eapply ev_open; eauto.
  - eapply ev_cp; eauto.
  - eapply ev_oc; eauto.
  - eapply ev_cc; eauto.
Qed.

(** X3: A successful openNewLoyaltyPayment increments the nonce of the payer only, a
    successful openCancelLoyaltyPayment increments the nonce of the shop's account only, and
    the two close functions leave every nonce unchanged. *)
Theorem entry_points_nonces :
  (forall data blk s s',
     openNewLoyaltyPayment convertCurrencyToPoint convertPointToToken ecrecover signatureCheck data blk s
       = Ok (tt, s') ->
     forall a, nonceOf s' a = nonceOf s a + (if decide (a = in_account data) then 1 else 0)) /\
  (forall id secret confirm s s',
     closeNewLoyaltyPayment convertCurrency keccakSecret id secret confirm s = Ok (tt, s') ->
     forall a, nonceOf s' a = nonceOf s a) /\
  (forall id lock sig blk s s',
     openCancelLoyaltyPayment ecrecover signatureCheck id lock sig blk s = Ok (tt, s') ->
     let shopAccount := shop_account (default emptyShop (shops s !! shopId (paymentOf s id))) in
     forall a, nonceOf s' a = nonceOf s a + (if decide (a = shopAccount) then 1 else 0)) /\
  (forall id secret confirm s s',
     closeCancelLoyaltyPayment keccakSecret id secret confirm s = Ok (tt, s') ->
     forall a, nonceOf s' a = nonceOf s a).
Proof.
  split; [|split; [|split]]; intros.
  - eapply nonce_open; eauto.
  - eapply nonce_cp; eauto.
  - eapply nonce_oc; eauto.
  - eapply nonce_cc; eauto.
Qed.

(** X4: A successful call moves the record's status as follows: open goes from INVALID to
    OPENED_PAYMENT; closeNewLoyaltyPayment goes from OPENED_PAYMENT to CLOSED_PAYMENT or
    FAILED_PAYMENT, according to confirm; openCancel ends in OPENED_CANCEL; closeCancel goes
    from OPENED_CANCEL to CLOSED_CANCEL or FAILED_CANCEL, according to confirm. *)
Theorem entry_points_status :
  (forall data blk s s',
     openNewLoyaltyPayment convertCurrencyToPoint convertPointToToken ecrecover signatureCheck data blk s
       = Ok (tt, s') ->
     status (paymentOf s (in_paymentId data)) = INVALID /\
     status (paymentOf s' (in_paymentId data)) = OPENED_PAYMENT) /\
  (forall id secret confirm s s',
     closeNewLoyaltyPayment convertCurrency keccakSecret id secret confirm s = Ok (tt, s') ->
     status (paymentOf s id) = OPENED_PAYMENT /\
     status (paymentOf s' id) = if confirm then CLOSED_PAYMENT else FAILED_PAYMENT) /\
  (forall id lock sig blk s s',
     openCancelLoyaltyPayment ecrecover signatureCheck id lock sig blk s = Ok (tt, s') ->
     status (paymentOf s' id) = OPENED_CANCEL) /\
  (forall id secret confirm s s',
     closeCancelLoyaltyPayment keccakSecret id secret confirm s = Ok (tt, s') ->
     status (paymentOf s id) = OPENED_CANCEL /\
     status (paymentOf s' id) = if confirm then CLOSED_CANCEL else FAILED_CANCEL).
Proof.
  split; [|split; [|split]]; intros.
  - eapply status_open; eauto.
  - eapply status_cp; eauto.
  - eapply status_oc; eauto.
  - eapply status_cc; eauto.
Qed.
(** X5: Once a payment id is no longer available (its status is not INVALID), it stays
    unavailable after any sequence of transitions, and openNewLoyaltyPayment with that id
    reverts with error 1530. *)
Theorem paymentId_never_reused s s' id :
  rtc (step convertCurrencyToPoint convertPointToToken convertCurrency ecrecover signatureCheck keccakSecret) s s' ->
  isAvailablePaymentId s id = false ->
  isAvailablePaymentId s' id = false /\
  (forall data blk, in_paymentId data = id ->
     openNewLoyaltyPayment convertCurrencyToPoint convertPointToToken ecrecover signatureCheck data blk s' = Err "1530").
Proof.
  intros Hsteps Hu.
  assert (Hu' : isAvailablePaymentId s' id = false).
  { induction Hsteps as [|x y z Hxy _ IH]; [exact Hu|]. apply IH. eapply step_keeps_used; eauto. }
  split; [exact Hu'|]. intros data blk <-. apply isAvailable_false in Hu'.
  unfold openNewLoyaltyPayment. sym; norm_bool; congruence.
Qed.

(** X6: In any reachable state, closeNewLoyaltyPayment on an OPENED_PAYMENT record with the
    correct secret always succeeds and leaves the record CLOSED_PAYMENT (confirm = true) or
    FAILED_PAYMENT (confirm = false); the holding account always covers the escrow. *)
Theorem close_payment_always_settles id secret confirm s :
  reachable convertCurrencyToPoint convertPointToToken convertCurrency ecrecover signatureCheck keccakSecret s ->
  status (paymentOf s id) = OPENED_PAYMENT ->
  keccakSecret secret = secretLock (paymentOf s id) ->
  exists s', closeNewLoyaltyPayment convertCurrency keccakSecret id secret confirm s = Ok (tt, s') /\
    status (paymentOf s' id) = if confirm then CLOSED_PAYMENT else FAILED_PAYMENT.
Proof.
  intros Hr Hst Hk.
  pose proof (escrowInv_holding s id (reachable_escrowInv _ _ _ _ _ _ s Hr)) as Hhold.
  rewrite escrowed_status, Hst in Hhold.
  assert (Hrun : exists s', closeNewLoyaltyPayment convertCurrency keccakSecret id secret confirm s
                              = Ok (tt, s')).
  { unfold closeNewLoyaltyPayment. sym; norm_bool; eauto; exfalso; finish_state. }
  destruct Hrun as [s' Hrun]. exists s'. split; [exact Hrun|].
  exact (proj2 (status_cp _ _ _ _ _ Hrun)).
Qed.

(** X7: In any reachable state, closeCancelLoyaltyPayment on an OPENED_CANCEL record with
    the correct secret succeeds if and only if the holding account holds at least the
    record's feeToken in tokens. *)
Theorem close_cancel_succeeds_iff id secret confirm s :
  reachable convertCurrencyToPoint convertPointToToken convertCurrency ecrecover signatureCheck keccakSecret s ->
  status (paymentOf s id) = OPENED_CANCEL ->
  keccakSecret secret = secretLock (paymentOf s id) ->
  (exists s', closeCancelLoyaltyPayment keccakSecret id secret confirm s = Ok (tt, s')) <->
  feeToken (paymentOf s id) <= tokenBalanceOf s temporaryAddress.
Proof.
  intros Hr Hst Hk.
  pose proof (escrowInv_holding s id (reachable_escrowInv _ _ _ _ _ _ s Hr)) as Hhold.
  rewrite escrowed_status, Hst in Hhold.
  unfold closeCancelLoyaltyPayment. split.
  - intros [s' Hs']. revert Hs'. sym; norm_bool; intros Hs'; try discriminate; finish_state.
  - intros Ht. sym; norm_bool; eauto; exfalso; finish_state.
Qed.


(** X8: A successful closeCancelLoyaltyPayment with confirm = true credits the payer with
    paidPoint + feePoint, moves feeToken tokens from the holding account to the system
    account, logs the subtraction of the used amount at the shop, and sets the record's
    status to CLOSED_CANCEL with its other fields unchanged. *)
Theorem closeCancel_confirm_effects id secret s s' :
  closeCancelLoyaltyPayment keccakSecret id secret true s = Ok (tt, s') ->
  let p := paymentOf s id in
  (forall a, pointBalanceOf s' a
             = pointBalanceOf s a + (if decide (a = account p) then paidPoint p + feePoint p else 0)) /\
  (forall a, tokenBalanceOf s' a + (if decide (a = temporaryAddress) then feeToken p else 0)
             = tokenBalanceOf s a + (if decide (a = systemAccount s) then feeToken p else 0)) /\
  usedAmountLog s' = usedAmountLog s ++ [UsedSub (shopId p) (usedValueShop p) (purchaseId p) id] /\
  paymentOf s' id = with_status CLOSED_CANCEL p.
Proof.
  unfold closeCancelLoyaltyPayment. sym; norm_bool; intros Hrun; try discriminate.
  injection Hrun as <-. simpl.
  repeat split; try intros a; finish_state; rewrite_zero_eqs; simpl_state; lia.
Qed.

(** X9: A successful openNewLoyaltyPayment stores the record built from the input: the
    converted paid point and token, a fee value of amount * fee / 10000 rounded down to
    whole GWEI, its converted point and token, the block timestamp, and status
    OPENED_PAYMENT. *)
Theorem openPayment_record data blk s s' :
  openNewLoyaltyPayment convertCurrencyToPoint convertPointToToken ecrecover signatureCheck data blk s = Ok (tt, s') ->
  let paidPoint := convertCurrencyToPoint (in_amount data) (in_currency data) in
  let feeValue := zeroGWEI (in_amount data * paymentFee s / 10000) in
  let feePoint := convertCurrencyToPoint feeValue (in_currency data) in
  paymentOf s' (in_paymentId data) =
    mkPayment (in_paymentId data) (in_purchaseId data) (in_currency data)
      (in_shopId data) (in_account data) (in_secretLock data)
      (block_timestamp blk) paidPoint (convertPointToToken paidPoint) (in_amount data)
      feePoint (convertPointToToken feePoint) feeValue 0 OPENED_PAYMENT.
Proof.
  unfold openNewLoyaltyPayment, _openNewLoyaltyPaymentPoint. sym; norm_bool; intros Hrun; try discriminate.
  injection Hrun as <-. simpl_state. reflexivity.
Qed.

(** X10: openNewLoyaltyPayment reverts with 1530 on a used id. On an available id it reverts
    with OpenZeppelin's error for each failure of ECDSA.recover, with 1501 when the recovered
    signer is not the payer, with Panic(0x11) when amount * fee or paid plus fee points
    overflow uint256, and otherwise with 1511 when the payer's points are below paid plus
    fee points. *)
Theorem openPayment_errors data blk s :
  let msg := MsgPayment (in_paymentId data) (in_purchaseId data) (in_amount data)
               (in_currency data) (in_shopId data) (in_account data)
               (block_chainid blk) (nonceOf s (in_account data)) in
  let recovered := tryRecover ecrecover signatureCheck msg (in_signature data) in
  let product := in_amount data * paymentFee s in
  let paid := convertCurrencyToPoint (in_amount data) (in_currency data) in
  let feeP := convertCurrencyToPoint (zeroGWEI (product / 10000)) (in_currency data) in
  let avail := isAvailablePaymentId s (in_paymentId data) in
  let run := openNewLoyaltyPayment convertCurrencyToPoint convertPointToToken ecrecover
               signatureCheck data blk s in
  (avail = false -> run = Err "1530") /\
  (avail = true -> snd recovered = InvalidSignature -> run = Err "ECDSA: invalid signature") /\
  (avail = true -> snd recovered = InvalidSignatureLength ->
     run = Err "ECDSA: invalid signature length") /\
  (avail = true -> snd recovered = InvalidSignatureS ->
     run = Err "ECDSA: invalid signature 's' value") /\
  (avail = true -> snd recovered = InvalidSignatureV ->
     run = Err "ECDSA: invalid signature 'v' value") /\
  (avail = true -> snd recovered = NoError -> fst recovered <> in_account data ->
     run = Err "1501") /\
  (avail = true -> recovered = (in_account data, NoError) -> UINT256_MAX < product ->
     run = Err "Panic(0x11)") /\
  (avail = true -> recovered = (in_account data, NoError) -> product <= UINT256_MAX ->
     UINT256_MAX < paid + feeP -> run = Err "Panic(0x11)") /\
  (avail = true -> recovered = (in_account data, NoError) -> product <= UINT256_MAX ->
     paid + feeP <= UINT256_MAX -> pointBalanceOf s (in_account data) < paid + feeP ->
     run = Err "1511").
Proof.
  intros msg recovered product paid feeP avail run.
  subst msg recovered product paid feeP avail run.
  unfold isAvailablePaymentId, loyaltyPaymentOf, tryRecover, openNewLoyaltyPayment,
    _openNewLoyaltyPaymentPoint.
  repeat split; sym; intros; norm_bool; try discriminate; try congruence;
    repeat match goal with H : (_, _) = (_, _) |- _ => injection H as ? ? end;
    try discriminate; try congruence; exfalso; finish_state.
Qed.
(** X11: A payment that was refunded (closeNewLoyaltyPayment with confirm = false) can still
    be cancelled by the shop: after openCancel and closeCancel with confirm = true, the
    payer has its pre-payment balance plus paidPoint + feePoint, and the record is
    CLOSED_CANCEL. *)
Theorem refunded_payment_refunded_again data blk secret1 lock sig blk' secret2 s0 s1 s2 s3 s4 :
  let id := in_paymentId data in
  openNewLoyaltyPayment convertCurrencyToPoint convertPointToToken ecrecover signatureCheck data blk s0 = Ok (tt, s1) ->
  closeNewLoyaltyPayment convertCurrency keccakSecret id secret1 false s1 = Ok (tt, s2) ->
  openCancelLoyaltyPayment ecrecover signatureCheck id lock sig blk' s2 = Ok (tt, s3) ->
  closeCancelLoyaltyPayment keccakSecret id secret2 true s3 = Ok (tt, s4) ->
  pointBalanceOf s4 (in_account data)
    = pointBalanceOf s0 (in_account data) + (paidPoint (paymentOf s1 id) + feePoint (paymentOf s1 id)) /\
  status (paymentOf s4 id) = CLOSED_CANCEL.
Proof.
  intros id H1 H2 H3 H4.
  destruct (open_run _ _ _ _ H1) as (Hnz & Hacc & Hb1).
  destruct (refund_run _ _ _ _ H2) as (Hp2 & Hb2).
  destruct (openCancel_run _ _ _ _ _ _ H3) as (Hp3 & _ & Hb3).
  destruct (cancel_confirm_run _ _ _ _ H4) as (Hb4 & _ & _ & Hp4).
  fold id in Hacc, Hb1.
  rewrite Hp3, Hp2 in Hb4. rewrite Hp4, Hp3, Hp2. simpl in Hb4 |- *.
  split; [|reflexivity].
  rewrite Hb4, Hb3 by (unfold temporaryAddress; exact Hnz).
  rewrite Hb2 by (unfold temporaryAddress; exact Hnz).
  rewrite Hacc. rewrite !decide_True by reflexivity. lia.
Qed.

(** X12: For a payment at an active shop, settling it (confirm = true), then opening and
    confirming its cancellation, appends to the shop's used-amount log an addition and then
    a subtraction of the same converted value. *)
Theorem used_amount_reversed_by_cancel id secret1 lock sig blk secret2 s1 s2 s3 s4 :
  let p := paymentOf s1 id in
  let shop := default emptyShop (shops s1 !! shopId p) in
  let v := convertCurrency (paidValue p) (currency p) (shop_currency shop) in
  shop_status shop = ACTIVE ->
  closeNewLoyaltyPayment convertCurrency keccakSecret id secret1 true s1 = Ok (tt, s2) ->
  openCancelLoyaltyPayment ecrecover signatureCheck id lock sig blk s2 = Ok (tt, s3) ->
  closeCancelLoyaltyPayment keccakSecret id secret2 true s3 = Ok (tt, s4) ->
  usedAmountLog s4 = usedAmountLog s1 ++
    [UsedAdd (shopId p) v (purchaseId p) id; UsedSub (shopId p) v (purchaseId p) id].
Proof.
  intros p shop v Hact H2 H3 H4.
  destruct (settle_run _ _ _ _ H2 Hact) as (Hp2 & Hl2).
  destruct (openCancel_run _ _ _ _ _ _ H3) as (Hp3 & Hl3 & _).
  destruct (cancel_confirm_run _ _ _ _ H4) as (_ & _ & Hl4 & _).
  rewrite Hl4, Hl3, Hl2, Hp3, Hp2. simpl. by rewrite <- app_assoc.
Qed.

End Consumer.


(* ------------------------------------------------------------------ *)
(** ** The provisioning routes *)

Section Relay.

Variable sideChainId : N.
Variable initialBalanceOfProvider : N.
Variable getSigner : result N.
Variable ledger_nonceOf_call : N -> result N.
Variable ledger_tokenBalanceOf_call : N -> result N.
Variable ledger_isProvider_call : N -> result bool.
Variable ledger_provisionAgentOf_call : N -> result N.
Variable convertTokenToPoint_call : N -> result N.
Variable verifyMessage : N -> RelayMessage -> N -> bool.
Variable sendTx : N -> RelayTx -> result N.
Variable postNewProvider_call : N -> result unit.
Variable getEVMErrorMessage : string -> N * string.

(** The five handlers over the collaborators above. *)
Abbreviation register := (provision_register sideChainId initialBalanceOfProvider getSigner
  ledger_nonceOf_call ledger_tokenBalanceOf_call verifyMessage postNewProvider_call
  getEVMErrorMessage).
Abbreviation send_account := (provision_send_account sideChainId getSigner ledger_nonceOf_call
  ledger_provisionAgentOf_call verifyMessage sendTx getEVMErrorMessage).
Abbreviation send_phone := (provision_send_phone_hash sideChainId getSigner ledger_nonceOf_call
  ledger_provisionAgentOf_call verifyMessage sendTx getEVMErrorMessage).
Abbreviation balance := (provision_balance ledger_tokenBalanceOf_call convertTokenToPoint_call
  getEVMErrorMessage).
Abbreviation pstatus := (provision_status ledger_isProvider_call getEVMErrorMessage).

Create HintDb relay.
#[local] Hint Unfold rret rbind lift try_catch try_catch_finally addMetric getRelaySigner
  releaseRelaySigner postNewProvider submitTx failureResponse set_signerUsing : relay.

(** Run a handler symbolically, splitting on every awaited outcome. *)
Ltac rsym :=
  repeat autounfold with relay; simpl;
  repeat (match goal with
          | |- context [match ?c with Ok _ => _ | Err _ => _ end] =>
              let E := fresh "E" in destruct c eqn:E
          | |- context [match ?c with true => _ | false => _ end] =>
              let E := fresh "E" in destruct c eqn:E
          | |- context [let '(_, _) := getEVMErrorMessage ?e in _] =>
              let E := fresh "E" in destruct (getEVMErrorMessage e) eqn:E
          end; simpl).


(** X14: provision_send_account and provision_send_phone_hash submit a transaction only when
    the signature verifies for the provider's agent (or the provider itself when the agent
    is the zero address) over the message with the agent's current nonce; otherwise no
    transaction is sent. *)
Theorem provision_transfer_authorised req s :
  let provider := req_provider req in
  (let '(_, s') := send_account req s in
   sentTxs s' = sentTxs s \/
   exists agent0 nonce signer,
     ledger_provisionAgentOf_call provider = Ok agent0 /\
     ledger_nonceOf_call (provisionSigner provider agent0) = Ok nonce /\
     verifyMessage (provisionSigner provider agent0)
       (ProvidePointToAddressMsg provider (req_receiver req) (req_amount req) nonce sideChainId)
       (req_signature req) = true /\
     sentTxs s' = sentTxs s ++
       [(signer, ProvideToAddressTx provider (req_receiver req) (req_amount req)
                   (req_signature req))]) /\
  (let '(_, s') := send_phone req s in
   sentTxs s' = sentTxs s \/
   exists agent0 nonce signer,
     ledger_provisionAgentOf_call provider = Ok agent0 /\
     ledger_nonceOf_call (provisionSigner provider agent0) = Ok nonce /\
     verifyMessage (provisionSigner provider agent0)
       (ProvidePointToPhoneMsg provider (req_receiver req) (req_amount req) nonce sideChainId)
       (req_signature req) = true /\
     sentTxs s' = sentTxs s ++
       [(signer, ProvideToPhoneTx provider (req_receiver req) (req_amount req)
                   (req_signature req))]).
Proof.
  unfold provision_send_account, provision_send_phone_hash.
  destruct (req_valid req); simpl; [|split; left; reflexivity].
  split; rsym.
  all: first [left; reflexivity | right; do 3 eexists; repeat split; eauto;
               apply negb_false_iff; assumption].
Qed.

(** X15: For a valid request, provision_register and both send handlers always answer,
    whatever the outcome, and release the relay signer they took, so the signer ends up
    marked unused; if no signer can be obtained, the handler fails before changing any
    state. *)
Theorem provision_signer_released req s :
  req_valid req = true ->
  (forall n, getSigner = Ok n ->
     (match (provision_register sideChainId initialBalanceOfProvider getSigner ledger_nonceOf_call
        ledger_tokenBalanceOf_call verifyMessage postNewProvider_call getEVMErrorMessage req s) with
      | (r, s') => (exists resp, r = Ok resp) /\ signerUsing s' = <[n := false]> (signerUsing s)
      end) /\
     (match (provision_send_account sideChainId getSigner ledger_nonceOf_call
        ledger_provisionAgentOf_call verifyMessage sendTx getEVMErrorMessage req s) with
      | (r, s') => (exists resp, r = Ok resp) /\ signerUsing s' = <[n := false]> (signerUsing s)
      end) /\
     (match (provision_send_phone_hash sideChainId getSigner ledger_nonceOf_call
        ledger_provisionAgentOf_call verifyMessage sendTx getEVMErrorMessage req s) with
      | (r, s') => (exists resp, r = Ok resp) /\ signerUsing s' = <[n := false]> (signerUsing s)
      end)) /\
  (forall e, getSigner = Err e ->
     (provision_register sideChainId initialBalanceOfProvider getSigner ledger_nonceOf_call
        ledger_tokenBalanceOf_call verifyMessage postNewProvider_call getEVMErrorMessage req s) = (Err e, s) /\
     (provision_send_account sideChainId getSigner ledger_nonceOf_call
        ledger_provisionAgentOf_call verifyMessage sendTx getEVMErrorMessage req s) = (Err e, s) /\
     (provision_send_phone_hash sideChainId getSigner ledger_nonceOf_call
        ledger_provisionAgentOf_call verifyMessage sendTx getEVMErrorMessage req s) = (Err e, s)).
Proof.
  intros Hv.
  unfold provision_register, provision_send_account, provision_send_phone_hash.
  rewrite Hv; simpl. split.
  - intros n Hg. repeat split; rsym; rewrite Hg in *; try discriminate.
    all: repeat match goal with H : Ok _ = Ok _ |- _ => injection H as <- end.
    all: split; [eexists; reflexivity | by rewrite insert_insert_eq].
  - intros e Hg. unfold rbind, getRelaySigner. rewrite Hg. repeat split.
Qed.

(** X16: Every provisioning handler records exactly one success metric when it answers with
    code 0, exactly one failure metric when it answers through its error handler, and no
    metric when it rejects an invalid request. *)
Theorem provision_metrics_accounted req s :
  metricsAccounted s (register req s) /\ metricsAccounted s (balance req s) /\
  metricsAccounted s (pstatus req s) /\ metricsAccounted s (send_account req s) /\
  metricsAccounted s (send_phone req s).
Proof.
  unfold provision_register, provision_send_account, provision_send_phone_hash,
    provision_balance, provision_status.
  destruct (req_valid req); simpl; [|repeat split; reflexivity].
  repeat split; rsym.
  all: repeat case_match; reflexivity.
Qed.

(** X17: provision_register posts a new provider only when the provider's signature over its
    current nonce verifies and its token balance is at least initialBalanceOfProvider;
    otherwise the provider list is unchanged. *)
Theorem provision_register_authorised req s :
  let provider := req_provider req in
  let '(_, s') :=
    provision_register sideChainId initialBalanceOfProvider getSigner ledger_nonceOf_call
      ledger_tokenBalanceOf_call verifyMessage postNewProvider_call getEVMErrorMessage req s in
  providers s' = providers s \/
  exists nonce bal,
    ledger_nonceOf_call provider = Ok nonce /\
    verifyMessage provider (RegisterProviderMsg provider nonce sideChainId) (req_signature req)
      = true /\
    ledger_tokenBalanceOf_call provider = Ok bal /\
    initialBalanceOfProvider <= bal /\
    providers s' = providers s ++ [provider].
Proof.
  unfold provision_register. destruct (req_valid req); simpl; [|left; reflexivity].
  rsym.
  all: first [left; reflexivity | right; do 2 eexists; repeat split; eauto;
               first [apply negb_false_iff; assumption | apply N.ltb_ge; assumption]].
Qed.

End Relay.


(* ------------------------------------------------------------------ *)
(** ** Administration *)



Lemma runAdmin_keeps g call c :
  initialized c = true ->
  let c' := match runAdmin g call c with Ok c' => c' | Err _ => c end in
  initialized c' = true /\ cfg_temporaryAddress c' = cfg_temporaryAddress c /\
  (isSetLedger c = true -> isSetLedger c' = true /\ ledgerContract c' = ledgerContract c /\
                           cfg_systemAccount c' = cfg_systemAccount c) /\
  (isSetShop c = true -> isSetShop c' = true /\ shopContract c' = shopContract c).
Proof.
  intros Hi. destruct call as [sender cr|sender addr|sender addr]; simpl.
  - unfold initialize. rewrite Hi. tauto.
  - unfold setLedger. destruct (negb (sender =? owner c)); [tauto|].
    destruct (isSetLedger c) eqn:E; simpl; [tauto|]. repeat split; try congruence; tauto.
  - unfold setShop. destruct (negb (sender =? owner c)); [tauto|].
    destruct (isSetShop c) eqn:E; simpl; [tauto|]. repeat split; try congruence; tauto.
Qed.

(** X20: On an initialized contract, after any sequence of initialize, setLedger and setShop
    calls the temporary address is unchanged, a ledger once registered keeps its address and
    system account, and a shop once registered keeps its address. *)
Theorem registration_final g calls c :
  initialized c = true ->
  let c' := runAdmins g calls c in
  cfg_temporaryAddress c' = cfg_temporaryAddress c /\
  (isSetLedger c = true -> ledgerContract c' = ledgerContract c /\
                           cfg_systemAccount c' = cfg_systemAccount c) /\
  (isSetShop c = true -> shopContract c' = shopContract c).
Proof.
  revert c. induction calls as [|call rest IH]; intros c Hi; simpl.
  - tauto.
  - destruct (runAdmin_keeps g call c Hi) as (Hi' & Ht & Hl & Hs).
    destruct (IH _ Hi') as (Ht2 & Hl2 & Hs2). split; [congruence|]. split.
    + intros HL. destruct (Hl HL) as (HL' & E1 & E2). destruct (Hl2 HL'). split; congruence.
    + intros HS. destruct (Hs HS) as (HS' & E1). rewrite Hs2; congruence.
Qed.


(* ------------------------------------------------------------------ *)
(** ** Concrete runs *)

Import Demo.

Ltac close_concrete :=
  repeat split; vm_compute; try reflexivity; try (intros ?; discriminate);
  try (left; reflexivity); try (right; split; [intros ?; discriminate | reflexivity]).

Lemma demo_reachable_state1_nofee :
  reachable toPoint toToken convert ecrecover sigCheck keccak state1_nofee.
Proof.
  apply (reach_step _ _ _ _ _ _ state0_nofee); [apply reach_init; reflexivity|].
  apply (step_openPayment _ _ _ _ _ _ input1 blk0). vm_compute. reflexivity.
Qed.

(** C2 (counterexample): settling payment 1 lowers the point total of
    payer, holding, system and fee accounts by 101 G, and opening its
    cancellation raises it by 101 G. *)
Lemma escrow_supply_not_conserved :
  closeNewLoyaltyPayment convert keccak 1 42 true state1 = Ok (tt, state2) /\
  pointSupply state2 [7; 0; 3; 4] + 101 * G = pointSupply state1 [7; 0; 3; 4] /\
  openCancelLoyaltyPayment ecrecover sigCheck 1 (keccak 43) 2 blk0 state2 = Ok (tt, state3) /\
  pointSupply state3 [7; 0; 3; 4] = pointSupply state2 [7; 0; 3; 4] + 101 * G.
Proof. repeat split; vm_compute; reflexivity. Qed.

Lemma escrow_supply_by_transition_witness :
  NoDup [7; 0; 3; 4] /\ In temporaryAddress [7; 0; 3; 4] /\
  pointSupply state2 [7; 0; 3; 4] + (paidPoint (paymentOf state1 1) + feePoint (paymentOf state1 1))
    = pointSupply state1 [7; 0; 3; 4].
Proof.
  assert (Hnd : NoDup [7; 0; 3; 4]) by (apply NoDup_ListNoDup; repeat constructor; simpl; intuition lia).
  assert (Hin : In temporaryAddress [7; 0; 3; 4]) by (simpl; auto).
  split; [exact Hnd | split; [exact Hin|]].
  destruct (escrow_supply_by_transition toPoint toToken convert ecrecover sigCheck keccak
              [7; 0; 3; 4] Hnd Hin) as (_ & _ & H3 & _).
  apply (H3 1 42). vm_compute. reflexivity.
Defined.

Lemma openCancel_after_window_fails_witness :
  timestamp (paymentOf state2 1) + 86400 * 7 < block_timestamp blk_late /\
  openCancelLoyaltyPayment ecrecover sigCheck 1 (keccak 43) 2 blk_late state2 = Err "1534".
Proof.
  split; [vm_compute; reflexivity|].
  apply openCancel_after_window_fails. vm_compute. reflexivity.
Defined.

Lemma close_wrong_secret_reverts_witness :
  keccak 41 <> secretLock (paymentOf state1 1) /\
  (exists e, closeNewLoyaltyPayment convert keccak 1 41 true state1 = Err e) /\
  (exists e, closeCancelLoyaltyPayment keccak 1 41 true state1 = Err e).
Proof.
  assert (H : keccak 41 <> secretLock (paymentOf state1 1)) by (vm_compute; discriminate).
  split; [exact H|]. apply close_wrong_secret_reverts. exact H.
Defined.


(** C5 (counterexample): account 7 holds [UINT256_MAX] points and opens
    payment 2 of 2^255 KRW at fee 100 with its own signature. The id is
    fresh, the signature recovers to 7 and the balance covers paid plus fee
    points, yet [amount * fee] exceeds uint256 and the call aborts with
    Panic(0x11): no record is opened. *)
Lemma openPayment_overflow_panics :
  status (paymentOf DemoMore.state_rich 2) = INVALID /\
  tryRecover ecrecover sigCheck
    (MsgPayment 2 "P2" (2 ^ 255) "KRW" 10 7 1 (nonceOf DemoMore.state_rich 7)) 4
    = (7, NoError) /\
  toPoint (2 ^ 255) "KRW"
    + toPoint (zeroGWEI (2 ^ 255 * paymentFee DemoMore.state_rich / 10000)) "KRW"
    <= pointBalanceOf DemoMore.state_rich 7 /\
  UINT256_MAX < 2 ^ 255 * paymentFee DemoMore.state_rich /\
  openNewLoyaltyPayment toPoint toToken ecrecover sigCheck DemoMore.input_big blk0
    DemoMore.state_rich = Err "Panic(0x11)".
Proof. close_concrete. Qed.

Lemma openPayment_valid_effects_witness :
  status (paymentOf state0 1) = INVALID /\
  exists s', open1 state0 = Ok (tt, s') /\
    status (paymentOf s' 1) = OPENED_PAYMENT /\
    pointBalanceOf s' 7 + (paidPoint (paymentOf s' 1) + feePoint (paymentOf s' 1))
      = pointBalanceOf state0 7.
Proof.
  assert (Hst : status (paymentOf state0 1) = INVALID) by reflexivity.
  split; [exact Hst|].
  destruct (openPayment_valid_effects toPoint toToken ecrecover sigCheck input1 blk0 state0 Hst)
    as (s' & Hrun & Hstat & _ & _ & Hpay & _);
    [vm_compute; reflexivity | vm_compute; discriminate | vm_compute; discriminate
    | vm_compute; discriminate |].
  exists s'. split; [exact Hrun|]. split; [exact Hstat | exact Hpay].
Defined.

Lemma open_then_refund_restores_payer_witness :
  open1 state0 = Ok (tt, state1) /\ keccak 42 = in_secretLock input1 /\
  exists s2,
    closeNewLoyaltyPayment convert keccak 1 42 false state1 = Ok (tt, s2) /\
    pointBalanceOf s2 7 = pointBalanceOf state0 7.
Proof.
  assert (Ho : open1 state0 = Ok (tt, state1)) by (vm_compute; reflexivity).
  assert (Hk : keccak 42 = in_secretLock input1) by reflexivity.
  split; [exact Ho | split; [exact Hk|]].
  destruct (open_then_refund_restores_payer toPoint toToken convert ecrecover sigCheck keccak
              input1 blk0 42 state0 state1 Ho Hk) as (s2 & Hc & Hb & _).
  exists s2. split; [exact Hc | exact Hb].
Defined.

Lemma closePayment_fee_shortfall_skipped_witness :
  reachable toPoint toToken convert ecrecover sigCheck keccak state1_nofee /\
  tokenBalanceOf state1_nofee (systemAccount state1_nofee) < feeToken (paymentOf state1_nofee 1) /\
  exists s',
    closeNewLoyaltyPayment convert keccak 1 42 true state1_nofee = Ok (tt, s') /\
    status (paymentOf s' 1) = CLOSED_PAYMENT.
Proof.
  pose proof demo_reachable_state1_nofee as Hr.
  assert (Ht : tokenBalanceOf state1_nofee (systemAccount state1_nofee)
               < feeToken (paymentOf state1_nofee 1)) by (vm_compute; reflexivity).
  split; [exact Hr | split; [exact Ht|]].
  destruct (closePayment_fee_shortfall_skipped toPoint toToken convert ecrecover sigCheck keccak
              1 42 state1_nofee Hr) as (s' & Hc & _ & _ & _ & Hs);
    [vm_compute; reflexivity | vm_compute; reflexivity | exact Ht |].
  exists s'. split; [exact Hc | exact Hs].
Defined.

Lemma demo_reachable_state3 :
  reachable toPoint toToken convert ecrecover sigCheck keccak state3.
Proof.
  apply (reach_step _ _ _ _ _ _ state2).
  - apply (reach_step _ _ _ _ _ _ state1).
    + apply (reach_step _ _ _ _ _ _ state0); [apply reach_init; reflexivity|].
      apply (step_openPayment _ _ _ _ _ _ input1 blk0). vm_compute. reflexivity.
    + apply (step_closePayment _ _ _ _ _ _ 1 42 true). vm_compute. reflexivity.
  - apply (step_openCancel _ _ _ _ _ _ 1 (keccak 43) 2 blk0). vm_compute. reflexivity.
Qed.

Lemma closeCancel_refuse_frame_witness :
  reachable toPoint toToken convert ecrecover sigCheck keccak state3 /\
  closeCancelLoyaltyPayment keccak 1 43 false state3 = Ok (tt, state4_refused) /\
  pointBalanceOf state4_refused 7 = pointBalanceOf state3 7.
Proof.
  pose proof demo_reachable_state3 as Hr.
  assert (Hc : closeCancelLoyaltyPayment keccak 1 43 false state3 = Ok (tt, state4_refused))
    by (vm_compute; reflexivity).
  split; [exact Hr | split; [exact Hc|]].
  destruct (closeCancel_refuse_frame toPoint toToken convert ecrecover sigCheck keccak
              1 43 state3 state4_refused Hr Hc) as (Hb & _).
  exact Hb.
Defined.

Lemma openCancel_fee_shortfall_is_fatal_witness :
  (block_timestamp blk0 <= timestamp (paymentOf state2_nofee 1) + 86400 * 7 /\
   cancelSignatureOk ecrecover sigCheck state2_nofee 1 3 blk0 /\
   tokenBalanceOf state2_nofee (paymentFeeAccount state2_nofee) < feeToken (paymentOf state2_nofee 1) /\
   openCancelLoyaltyPayment ecrecover sigCheck 1 (keccak 43) 3 blk0 state2_nofee = Err "1513") /\
  (block_timestamp blk0 <= timestamp (paymentOf state2 1) + 86400 * 7 /\
   cancelSignatureOk ecrecover sigCheck state2 1 3 blk0 /\
   feeToken (paymentOf state2 1) <= tokenBalanceOf state2 (paymentFeeAccount state2) /\
   exists s', openCancelLoyaltyPayment ecrecover sigCheck 1 (keccak 43) 3 blk0 state2 = Ok (tt, s') /\
     status (paymentOf s' 1) = OPENED_CANCEL).
Proof.
  assert (Hw1 : block_timestamp blk0 <= timestamp (paymentOf state2_nofee 1) + 86400 * 7)
    by (vm_compute; discriminate).
  assert (Hs1 : cancelSignatureOk ecrecover sigCheck state2_nofee 1 3 blk0) by close_concrete.
  assert (Hl1 : tokenBalanceOf state2_nofee (paymentFeeAccount state2_nofee)
                < feeToken (paymentOf state2_nofee 1)) by (vm_compute; reflexivity).
  assert (Hw2 : block_timestamp blk0 <= timestamp (paymentOf state2 1) + 86400 * 7)
    by (vm_compute; discriminate).
  assert (Hs2 : cancelSignatureOk ecrecover sigCheck state2 1 3 blk0) by close_concrete.
  assert (Hl2 : feeToken (paymentOf state2 1) <= tokenBalanceOf state2 (paymentFeeAccount state2))
    by (vm_compute; discriminate).
  destruct (openCancel_fee_shortfall_is_fatal ecrecover sigCheck 1 (keccak 43) 3 blk0 state2_nofee)
    as (_ & H2 & _).
  destruct (openCancel_fee_shortfall_is_fatal ecrecover sigCheck 1 (keccak 43) 3 blk0 state2)
    as (_ & _ & H3).
  split.
  - repeat split; auto.
  - destruct (H3 Hw2 Hs2 Hl2) as (s' & Hrun & _ & _ & _ & _ & Hst).
    repeat split; auto. exists s'. split; [exact Hrun | exact Hst].
Defined.

(** C9: a cancellation signed by the shop's delegate consumes the shop
    account's nonce and leaves the delegate's nonce unchanged, so the same
    delegate signature authorises a second cancellation. *)
Theorem openCancel_delegate_consumes_shop_nonce :
  cancelSignatureOk ecrecover sigCheck state2 1 2 blk0 /\
  ecrecover (MsgCancel 1 "P1" 5 1 (nonceOf state2 5)) 2 <> 5 /\
  openCancelLoyaltyPayment ecrecover sigCheck 1 (keccak 43) 2 blk0 state2 = Ok (tt, state3) /\
  nonceOf state3 5 = nonceOf state2 5 + 1 /\
  nonceOf state3 6 = nonceOf state2 6 /\
  exists s4, openCancelLoyaltyPayment ecrecover sigCheck 1 (keccak 44) 2 blk0 state3 = Ok (tt, s4).
Proof.
  split; [close_concrete|].
  repeat split; try (vm_compute; first [reflexivity | discriminate]).
  eexists. vm_compute. reflexivity.
Qed.


(* ------------------------------------------------------------------ *)
(** ** Concrete runs of the further properties *)

Import DemoMore.

Lemma entry_points_frame_witness :
  open1 state0 = Ok (tt, state1) /\ paymentOf state1 2 = paymentOf state0 2.
Proof.
  assert (H : open1 state0 = Ok (tt, state1)) by (vm_compute; reflexivity).
  split; [exact H|].
  exact (proj1 (entry_points_frame toPoint toToken convert ecrecover sigCheck keccak)
           input1 blk0 state0 state1 H 2 ltac:(discriminate)).
Defined.

Lemma entry_points_event_witness :
  open1 state0 = Ok (tt, state1) /\
  events state1 = events state0 ++
    [mkEvent (paymentOf state1 1) (pointBalanceOf state1 (account (paymentOf state1 1)))].
Proof.
  assert (H : open1 state0 = Ok (tt, state1)) by (vm_compute; reflexivity).
  split; [exact H|].
  exact (proj1 (entry_points_event toPoint toToken convert ecrecover sigCheck keccak)
           input1 blk0 state0 state1 H).
Defined.

Lemma entry_points_nonces_witness :
  open1 state0 = Ok (tt, state1) /\ nonceOf state1 7 = nonceOf state0 7 + 1.
Proof.
  assert (H : open1 state0 = Ok (tt, state1)) by (vm_compute; reflexivity).
  split; [exact H|].
  exact (proj1 (entry_points_nonces toPoint toToken convert ecrecover sigCheck keccak)
           input1 blk0 state0 state1 H 7).
Defined.

Lemma entry_points_status_witness :
  open1 state0 = Ok (tt, state1) /\ status (paymentOf state1 1) = OPENED_PAYMENT.
Proof.
  assert (H : open1 state0 = Ok (tt, state1)) by (vm_compute; reflexivity).
  split; [exact H|].
  exact (proj2 (proj1 (entry_points_status toPoint toToken convert ecrecover sigCheck keccak)
                  input1 blk0 state0 state1 H)).
Defined.

Lemma paymentId_never_reused_witness :
  isAvailablePaymentId state2 1 = false /\
  openNewLoyaltyPayment toPoint toToken ecrecover sigCheck input1 blk0 state2 = Err "1530".
Proof.
  assert (Hs : rtc (step toPoint toToken convert ecrecover sigCheck keccak) state1 state2).
  { apply rtc_once. apply (step_closePayment _ _ _ _ _ _ 1 42 true).
    vm_compute. reflexivity. }
  destruct (paymentId_never_reused toPoint toToken convert ecrecover sigCheck keccak state1 state2 1 Hs
              ltac:(vm_compute; reflexivity)) as [Hu Ho].
  split; [exact Hu | exact (Ho input1 blk0 eq_refl)].
Defined.

Lemma close_payment_always_settles_witness :
  exists s', closeNewLoyaltyPayment convert keccak 1 42 true state1_nofee = Ok (tt, s') /\
    status (paymentOf s' 1) = CLOSED_PAYMENT.
Proof.
  exact (close_payment_always_settles toPoint toToken convert ecrecover sigCheck keccak 1 42 true
           state1_nofee demo_reachable_state1_nofee
           ltac:(vm_compute; reflexivity) ltac:(vm_compute; reflexivity)).
Defined.

Lemma close_cancel_succeeds_iff_witness :
  exists s', closeCancelLoyaltyPayment keccak 1 43 true state3 = Ok (tt, s').
Proof.
  apply (close_cancel_succeeds_iff toPoint toToken convert ecrecover sigCheck keccak 1 43 true state3
           demo_reachable_state3 ltac:(vm_compute; reflexivity) ltac:(vm_compute; reflexivity)).
  apply N.leb_le. vm_compute. reflexivity.
Defined.

Lemma closeCancel_confirm_effects_witness :
  closeCancelLoyaltyPayment keccak 1 43 true state3 = Ok (tt, state4) /\
  paymentOf state4 1 = with_status CLOSED_CANCEL (paymentOf state3 1).
Proof.
  assert (H : closeCancelLoyaltyPayment keccak 1 43 true state3 = Ok (tt, state4))
    by (vm_compute; reflexivity).
  split; [exact H|].
  exact (proj2 (proj2 (proj2 (closeCancel_confirm_effects keccak 1 43 state3 state4 H)))).
Defined.

Lemma openPayment_record_witness :
  open1 state0 = Ok (tt, state1) /\
  paymentOf state1 1 =
    mkPayment 1 "P1" "KRW" 10 7 (keccak 42) 100 (100 * G) (100 * G) (100 * G) G G G 0
      OPENED_PAYMENT.
Proof.
  assert (H : open1 state0 = Ok (tt, state1)) by (vm_compute; reflexivity).
  split; [exact H|].
  refine (eq_trans (openPayment_record toPoint toToken ecrecover sigCheck input1 blk0 state0 state1 H) _).
  vm_compute. reflexivity.
Defined.

Lemma openPayment_errors_witness :
  openNewLoyaltyPayment toPoint toToken ecrecover sigCheck input1 blk0 state1 = Err "1530".
Proof.
  apply (proj1 (openPayment_errors toPoint toToken ecrecover sigCheck input1 blk0 state1)).
  vm_compute. reflexivity.
Defined.

Lemma refunded_payment_refunded_again_witness :
  pointBalanceOf state4_refund 7
    = pointBalanceOf state0 7 + (paidPoint (paymentOf state1 1) + feePoint (paymentOf state1 1)) /\
  status (paymentOf state4_refund 1) = CLOSED_CANCEL.
Proof.
  exact (refunded_payment_refunded_again toPoint toToken convert ecrecover sigCheck keccak
           input1 blk0 42 (keccak 43) 3 blk0 43 state0 state1 state2_refund state3_refund
           state4_refund
           ltac:(vm_compute; reflexivity) ltac:(vm_compute; reflexivity)
           ltac:(vm_compute; reflexivity) ltac:(vm_compute; reflexivity)).
Defined.

Lemma used_amount_reversed_by_cancel_witness :
  usedAmountLog state4 = usedAmountLog state1 ++
    [UsedAdd 10 (100 * G) "P1" 1; UsedSub 10 (100 * G) "P1" 1].
Proof.
  refine (eq_trans (used_amount_reversed_by_cancel convert ecrecover sigCheck keccak
                      1 42 (keccak 43) 2 blk0 43 state1 state2 state3 state4
                      ltac:(vm_compute; reflexivity) ltac:(vm_compute; reflexivity)
                      ltac:(vm_compute; reflexivity) ltac:(vm_compute; reflexivity)) _).
  vm_compute. reflexivity.
Defined.



Lemma registration_final_witness :
  ledgerContract (runAdmins sysAccountOf adminCalls cfgReg) = 30 /\
  shopContract (runAdmins sysAccountOf adminCalls cfgReg) = 40.
Proof.
  destruct (registration_final sysAccountOf adminCalls cfgReg eq_refl) as (_ & Hl & Hs).
  split; [exact (proj1 (Hl eq_refl)) | exact (Hs eq_refl)].
Defined.


Lemma provision_signer_released_witness :
  match provision_send_account 1 (Ok 2) nonce0 agentOf verify send evm req_agent relay0 with
  | (r, s') => (exists resp, r = Ok resp) /\ signerUsing s' = <[2 := false]> (signerUsing relay0)
  end.
Proof.
  exact (proj1 (proj2 (proj1 (provision_signer_released
           1 1000 (Ok 2) nonce0 balance500 agentOf verify send post evm
           req_agent relay0 eq_refl) 2 eq_refl))).
Defined.
